(** * Comment stripping for .ts/.tsx/.html/.css/.yml files

    A shallow embedding of [remove_comments.py].  The program is four
    calls to [re.sub] followed by a blank-line filter, so the model has
    three layers:

    - [Re]: a backtracking matcher with the priorities of Python's [re]
      (ordered alternation, greedy and lazy stars, capture groups) and
      [re.sub] on top of it;
    - [Py] and [OsPath]: the [str] and [os.path] functions the program calls;
    - the program: the four patterns as regex terms, the replacer
      callbacks, and [process_file].

    A Python [str] is a sequence of Unicode code points; it is modelled as
    a list of [N]. *)

From Stdlib Require Import String Ascii.
From Stdlib Require Import List NArith ZArith Bool Arith Lia Permutation.
Import ListNotations.

Set Implicit Arguments.

Definition char := N.
Definition text := list char.

(** ASCII literals of the development, as code points. *)
Definition str (s : string) : text :=
  map N_of_ascii (list_ascii_of_string s).

Definition LF : char := 10%N.
Definition CR : char := 13%N.
Definition SQUOTE : char := 39%N.     (* single quote *)
Definition DQUOTE : char := 34%N.     (* double quote *)
Definition BACKTICK : char := 96%N.
Definition BACKSLASH : char := 92%N.
Definition SLASH : char := 47%N.
Definition STAR : char := 42%N.       (* asterisk *)
Definition HASH : char := 35%N.
Definition DOT : char := 46%N.        (* full stop *)

(** ** Python's [str] methods used by the program *)

Module Py.

(** [str.isspace] on one code point (CPython's [_PyUnicode_IsWhitespace]). *)
Definition isspace (c : char) : bool :=
  ((9 <=? c) && (c <=? 13) || (28 <=? c) && (c <=? 32)
   || (c =? 133) || (c =? 160) || (c =? 5760)
   || (8192 <=? c) && (c <=? 8202)
   || (c =? 8232) || (c =? 8233) || (c =? 8239) || (c =? 8287)
   || (c =? 12288))%N.

(** The line boundaries of [str.splitlines]
    (CPython's [_PyUnicode_IsLinebreak]). *)
Definition is_linebreak (c : char) : bool :=
  ((10 <=? c) && (c <=? 13) || (28 <=? c) && (c <=? 30)
   || (c =? 133) || (c =? 8232) || (c =? 8233))%N.

(** [s.splitlines()]: the lines of [s] without their terminators.  [\r\n]
    is one boundary; a last line that has no terminator is kept only when
    it is not empty. *)
Fixpoint splitlines (s : text) : list text :=
  match s with
  | [] => []
  | c :: s' =>
    if is_linebreak c then
      if (c =? CR)%N then
        match s' with
        | d :: s'' => if (d =? LF)%N then [] :: splitlines s''
                      else [] :: splitlines s'
        | [] => [] :: splitlines s'
        end
      else [] :: splitlines s'
    else
      match splitlines s' with
      | [] => [[c]]
      | l :: ls => (c :: l) :: ls
      end
  end.

Fixpoint lstrip (s : text) : text :=
  match s with
  | c :: s' => if isspace c then lstrip s' else s
  | [] => []
  end.

Definition rstrip (s : text) : text := rev (lstrip (rev s)).

(** [s.strip()] with no argument. *)
Definition strip (s : text) : text := rstrip (lstrip s).

(** Truthiness of a [str]: the empty string is falsy. *)
Definition truthy (s : text) : bool :=
  match s with [] => false | _ :: _ => true end.

(** [sep.join(parts)]. *)
Fixpoint join (sep : text) (parts : list text) : text :=
  match parts with
  | [] => []
  | [p] => p
  | p :: ps => p ++ sep ++ join sep ps
  end.

(** [s.rfind(c)] for a one-character [c]: the highest index, or -1. *)
Fixpoint rfind_from (c : char) (s : text) (i : Z) (best : Z) : Z :=
  match s with
  | [] => best
  | x :: s' => rfind_from c s' (i + 1)%Z (if (x =? c)%N then i else best)
  end.

Definition rfind (c : char) (s : text) : Z := rfind_from c s 0%Z (-1)%Z.

(** [s.endswith(suffix)]. *)
Definition endswith (s suffix : text) : bool :=
  (length suffix <=? length s)
  && if list_eq_dec N.eq_dec (skipn (length s - length suffix) s) suffix
     then true else false.

End Py.

(** ** [os.path.splitext] (posixpath) *)

Module OsPath.

(** The loop of [genericpath._splitext] that skips the leading dots of the
    file name: is there a character other than [.] in
    [p[filenameIndex:dotIndex]]? *)
Definition has_non_dot (p : text) (filenameIndex dotIndex : Z) : bool :=
  existsb (fun x => negb (x =? DOT)%N)
    (firstn (Z.to_nat (dotIndex - filenameIndex))
            (skipn (Z.to_nat filenameIndex) p)).

Definition splitext (p : text) : text * text :=
  let sepIndex := Py.rfind SLASH p in
  let dotIndex := Py.rfind DOT p in
  if (sepIndex <? dotIndex)%Z then
    if has_non_dot p (sepIndex + 1)%Z dotIndex
    then (firstn (Z.to_nat dotIndex) p, skipn (Z.to_nat dotIndex) p)
    else (p, [])
  else (p, []).

(** [os.path.join(a, b)] (posixpath): [b] alone when it is absolute, else
    [a] and [b] with one [/] between them unless [a] is empty or ends
    with one. *)
Definition join (a b : text) : text :=
  match b with
  | c :: _ =>
    if (c =? SLASH)%N then b
    else if Py.endswith a [SLASH] || (length a =? 0) then a ++ b
    else a ++ [SLASH] ++ b
  | [] =>
    if Py.endswith a [SLASH] || (length a =? 0) then a ++ b
    else a ++ [SLASH] ++ b
  end.

End OsPath.

(** ** Python's [re]: a backtracking matcher *)

Module Re.

Inductive regex : Type :=
| Chr (c : char)               (* a literal character *)
| Dot                          (* [.] without DOTALL: anything but \n *)
| Cls (p : char -> bool)       (* a character class [[...]] *)
| Eol                          (* [$] under re.MULTILINE *)
| Seq (r1 r2 : regex)
| Alt (r1 r2 : regex)          (* [r1|r2]: r1 is tried first *)
| Star (r : regex)             (* [r*], greedy *)
| StarLazy (r : regex)         (* [r*?] *)
| Group (n : nat) (r : regex). (* capture group number n *)

(** Captures: the latest binding of a group is the first in the list. *)
Definition groups := list (nat * text).

Fixpoint lookup (n : nat) (g : groups) : option text :=
  match g with
  | [] => None
  | (i, t) :: g' => if Nat.eqb i n then Some t else lookup n g'
  end.

Section Matcher.

Variable R : Type.

(** What remains to be matched after a sub-pattern: it receives the rest
    of the text and the captures, and fails ([None]) to make the
    sub-pattern backtrack. *)
Definition cont := text -> groups -> option R.

(** [r*]: one more iteration first, the continuation when that fails.  An
    iteration that consumes nothing is not repeated. *)
Fixpoint star_greedy (body : text -> groups -> cont -> option R)
    (fuel : nat) (s : text) (g : groups) (k : cont) : option R :=
  match fuel with
  | O => k s g
  | S f =>
    match body s g (fun s' g' =>
            if length s' <? length s then star_greedy body f s' g' k
            else None) with
    | Some r => Some r
    | None => k s g
    end
  end.

(** [r*?]: the continuation first, one more iteration when that fails. *)
Fixpoint star_lazy (body : text -> groups -> cont -> option R)
    (fuel : nat) (s : text) (g : groups) (k : cont) : option R :=
  match k s g with
  | Some r => Some r
  | None =>
    match fuel with
    | O => None
    | S f =>
      body s g (fun s' g' =>
        if length s' <? length s then star_lazy body f s' g' k
        else None)
    end
  end.

Fixpoint exec (r : regex) (s : text) (g : groups) (k : cont) : option R :=
  match r with
  | Chr c =>
    match s with
    | x :: s' => if (x =? c)%N then k s' g else None
    | [] => None
    end
  | Dot =>
    match s with
    | x :: s' => if (x =? LF)%N then None else k s' g
    | [] => None
    end
  | Cls p =>
    match s with
    | x :: s' => if p x then k s' g else None
    | [] => None
    end
  | Eol =>
    match s with
    | [] => k s g
    | x :: _ => if (x =? LF)%N then k s g else None
    end
  | Seq r1 r2 => exec r1 s g (fun s' g' => exec r2 s' g' k)
  | Alt r1 r2 =>
    match exec r1 s g k with
    | Some r => Some r
    | None => exec r2 s g k
    end
  | Star r' => star_greedy (exec r') (length s) s g k
  | StarLazy r' => star_lazy (exec r') (length s) s g k
  | Group n r' =>
    exec r' s g (fun s' g' =>
      k s' ((n, firstn (length s - length s') s) :: g'))
  end.

End Matcher.

(** A match object: the matched text and the captures. *)
Record match_obj : Type := MatchObj { group0 : text; captures : groups }.

(** [match.group(n)] for n >= 1; [None] when the group took no part. *)
Definition group (mo : match_obj) (n : nat) : option text :=
  lookup n (captures mo).

(** A match of [p] that starts at the head of [s]: the match object and
    the text after the match.  With [must_advance] an empty match is
    refused (and the matcher backtracks). *)
Definition match_at (p : regex) (must_advance : bool) (s : text)
  : option (match_obj * text) :=
  exec p s []
    (fun s' g =>
       if must_advance && (length s' =? length s) then None
       else Some (MatchObj (firstn (length s - length s') s) g, s')).

(** The loop of [re.sub(p, repl, s)] with a callable [repl]: leftmost
    matches, not overlapping; text between matches is copied.  After an
    empty match the search goes on at the same place and must advance. *)
Fixpoint sub_loop (fuel : nat) (p : regex) (repl : match_obj -> text)
    (must_advance : bool) (s : text) : text :=
  match fuel with
  | O => s
  | S f =>
    match match_at p must_advance s with
    | Some (mo, rest) =>
      repl mo ++
      (if length rest <? length s then sub_loop f p repl false rest
       else sub_loop f p repl true s)
    | None =>
      match s with
      | [] => []
      | c :: s' => c :: sub_loop f p repl false s'
      end
    end
  end.

Definition sub (p : regex) (repl : match_obj -> text) (s : text) : text :=
  sub_loop (2 * length s + 2) p repl false s.

(** [re.sub(p, '', s)]. *)
Definition sub_const (p : regex) (repl : text) (s : text) : text :=
  sub p (fun _ => repl) s.

(** Pattern syntax helpers. *)
Fixpoint lit (t : text) : regex :=
  match t with
  | [] => Star (Cls (fun _ => false))   (* the empty pattern *)
  | [c] => Chr c
  | c :: t' => Seq (Chr c) (lit t')
  end.

(** [\s] and [\S] on [str] patterns. *)
Definition cls_s (c : char) : bool := Py.isspace c.
Definition cls_S (c : char) : bool := negb (Py.isspace c).

(** [[^...]]. *)
Definition none_of (cs : list char) (c : char) : bool :=
  negb (existsb (N.eqb c) cs).

End Re.

(** ** The program *)

Import Re.

(** A quoted literal, [q(?:\\.|[^\\q])*q] for the quote character [q]: the
    first two alternatives of group 1. *)
Definition quoted (q : char) : regex :=
  Seq (Chr q)
    (Seq (Star (Alt (Seq (Chr BACKSLASH) Dot)
                    (Cls (none_of [BACKSLASH; q]))))
         (Chr q)).

(** [`(?:\\.|[^`])*`]. *)
Definition template : regex :=
  Seq (Chr BACKTICK)
    (Seq (Star (Alt (Seq (Chr BACKSLASH) Dot)
                    (Cls (none_of [BACKTICK]))))
         (Chr BACKTICK)).

(** [/\*[\s\S]*?\*/]. *)
Definition block_comment : regex :=
  Seq (Chr SLASH) (Seq (Chr STAR)
    (Seq (StarLazy (Cls (fun c => cls_s c || cls_S c)))
         (Seq (Chr STAR) (Chr SLASH)))).

(** [//.*]. *)
Definition line_comment : regex :=
  Seq (Chr SLASH) (Seq (Chr SLASH) (Star Dot)).

(** The Script pattern: group 1 is a literal, group 2 a block comment,
    group 3 a line comment.  It is compiled with re.MULTILINE, which only
    changes the anchors, and the pattern has none. *)
Definition js_ts_pattern : regex :=
  Alt (Group 1 (Alt (quoted SQUOTE) (Alt (quoted DQUOTE) template)))
      (Alt (Group 2 block_comment) (Group 3 line_comment)).

Definition remove_js_ts_comments (content : text) : text :=
  let replacer (mo : match_obj) : text :=
    match group mo 1 with
    | Some g1 => if Py.truthy g1 then g1 else []
    | None => []
    end in
  sub js_ts_pattern replacer content.

(** [<!--[\s\S]*?-->]. *)
Definition html_pattern : regex :=
  Seq (lit (str "<!--"))
    (Seq (StarLazy (Cls (fun c => cls_s c || cls_S c)))
         (lit (str "-->"))).

Definition remove_html_comments (content : text) : text :=
  sub_const html_pattern [] content.

Definition remove_css_comments (content : text) : text :=
  sub_const block_comment [] content.

(** [#.*$] with re.MULTILINE. *)
Definition hash_comment : regex :=
  Seq (Chr HASH) (Seq (Star Dot) Eol).

(** Group 1: a single-quoted or a double-quoted literal; group 2: a
    [#] comment. *)
Definition yml_pattern : regex :=
  Alt (Group 1 (Alt (quoted SQUOTE) (quoted DQUOTE)))
      (Group 2 hash_comment).

Definition remove_yml_comments (content : text) : text :=
  let replacer (mo : match_obj) : text :=
    match group mo 1 with
    | Some g1 =>
      if Py.truthy g1 then g1
      else match group mo 2 with
           | Some g2 => if Py.truthy g2 then [] else []
           | None => []
           end
    | None =>
      match group mo 2 with
      | Some g2 => if Py.truthy g2 then [] else []
      | None => []
      end
    end in
  sub yml_pattern replacer content.

(** The dispatch on the extension in [process_file]; [None] is the
    [else: return] branch. *)
Definition strip_for (extension : text) : option (text -> text) :=
  if list_eq_dec N.eq_dec extension (str ".ts") then Some remove_js_ts_comments
  else if list_eq_dec N.eq_dec extension (str ".tsx") then Some remove_js_ts_comments
  else if list_eq_dec N.eq_dec extension (str ".html") then Some remove_html_comments
  else if list_eq_dec N.eq_dec extension (str ".css") then Some remove_css_comments
  else if list_eq_dec N.eq_dec extension (str ".yml") then Some remove_yml_comments
  else None.

(** [[line for line in new_content.splitlines() if line.strip()]]. *)
Definition kept_lines (new_content : text) : list text :=
  filter (fun line => Py.truthy (Py.strip line)) (Py.splitlines new_content).

(** Lines 59-63 of [process_file]. *)
Definition compact (new_content : text) : text :=
  let lines := kept_lines new_content in
  match lines with
  | _ :: _ => Py.join [LF] lines ++ [LF]
  | [] => []
  end.

(** The text [process_file] writes for a file with this extension and this
    content, [None] when it returns before writing. *)
Definition final_content (extension content : text) : option text :=
  match strip_for extension with
  | Some remove_comments => Some (compact (remove_comments content))
  | None => None
  end.

(** The files: what [f.read()] returns for a path ([None] when [open] or
    the UTF-8 decoding raises), and whether the path can be opened for
    writing.  The contents are the decoded text, as the program sees it:
    the newline translation of Python's text mode happens below this
    model, on reading and on writing. *)
Record filesystem : Type := Files {
  contents : text -> option text;
  writable : text -> bool
}.

Definition write (fs : filesystem) (filepath data : text) : filesystem :=
  Files (fun p => if list_eq_dec N.eq_dec p filepath then Some data
                  else contents fs p)
        (writable fs).

Definition process_file (fs : filesystem) (filepath : text) : filesystem :=
  match contents fs filepath with
  | None => fs                                   (* Could not read *)
  | Some content =>
    let extension := snd (OsPath.splitext filepath) in
    match final_content extension content with
    | None => fs                                 (* else: return *)
    | Some data =>
      if writable fs filepath then write fs filepath data
      else fs                                    (* Could not write *)
    end
  end.

(** [target_extensions] of [main]. *)
Definition target_extensions : list text :=
  [str ".ts"; str ".tsx"; str ".yml"; str ".html"; str ".css"].

(** ** What the patterns match, as direct scanners

    Each pattern is a fixed term, so the search of the backtracking matcher
    can be written as a function on the text.  These functions are derived
    from the patterns; the section [Refinement] proves that the matcher
    computes them. *)

(** [t] is a prefix of [s]: the text after it. *)
Fixpoint strip_prefix (t s : text) : option text :=
  match t with
  | [] => Some s
  | c :: t' =>
    match s with
    | x :: s' => if (x =? c)%N then strip_prefix t' s' else None
    | [] => None
    end
  end.

(** The text after the first occurrence of [term] in [s]. *)
Fixpoint find_after (term s : text) : option text :=
  match strip_prefix term s with
  | Some rest => Some rest
  | None =>
    match s with
    | [] => None
    | _ :: s' => find_after term s'
    end
  end.

(** The text from the first \n on (the \n included). *)
Fixpoint skip_line (s : text) : text :=
  match s with
  | [] => []
  | c :: s' => if (c =? LF)%N then s else skip_line s'
  end.

(** After an opening quote [q]: the text after the closing quote.  A
    backslash takes the next character with it unless that is \n, where
    the match fails. *)
Fixpoint scan_quoted (q : char) (s : text) : option text :=
  match s with
  | [] => None
  | c :: s' =>
    if (c =? q)%N then Some s'
    else if (c =? BACKSLASH)%N then
      match s' with
      | d :: s'' => if (d =? LF)%N then None else scan_quoted q s''
      | [] => None
      end
    else scan_quoted q s'
  end.

(** After an opening backtick: the text after the backtick that closes the
    first successful path of the search.  A backslash is first tried as an
    escape of the next character, then as a character of its own. *)
Fixpoint scan_template (s : text) : option text :=
  match s with
  | [] => None
  | c :: s' =>
    if (c =? BACKTICK)%N then Some s'
    else if (c =? BACKSLASH)%N then
      match
        match s' with
        | d :: s'' => if (d =? LF)%N then None else scan_template s''
        | [] => None
        end
      with
      | Some rest => Some rest
      | None => scan_template s'
      end
    else scan_template s'
  end.

(** A match of the Script pattern at the head of [s]: the number of the
    group that matched and the text after the match. *)
Definition js_lex (s : text) : option (nat * text) :=
  match s with
  | [] => None
  | c :: s' =>
    if (c =? SQUOTE)%N then option_map (pair 1) (scan_quoted SQUOTE s')
    else if (c =? DQUOTE)%N then option_map (pair 1) (scan_quoted DQUOTE s')
    else if (c =? BACKTICK)%N then option_map (pair 1) (scan_template s')
    else if (c =? SLASH)%N then
      match s' with
      | d :: s'' =>
        if (d =? STAR)%N then option_map (pair 2) (find_after (str "*/") s'')
        else if (d =? SLASH)%N then Some (3, skip_line s'')
        else None
      | [] => None
      end
    else None
  end.

(** The same for the Config pattern. *)
Definition yml_lex (s : text) : option (nat * text) :=
  match s with
  | [] => None
  | c :: s' =>
    if (c =? SQUOTE)%N then option_map (pair 1) (scan_quoted SQUOTE s')
    else if (c =? DQUOTE)%N then option_map (pair 1) (scan_quoted DQUOTE s')
    else if (c =? HASH)%N then Some (2, skip_line s')
    else None
  end.

(** A match of [opener [\s\S]*? closer] at the head of [s]: the text after
    the match. *)
Definition delimited (opener closer : text) (s : text) : option text :=
  match strip_prefix opener s with
  | Some s' => find_after closer s'
  | None => None
  end.

(** The match object of a match of group [n] that leaves [rest] of [s]. *)
Definition match_of (s : text) (n : nat) (rest : text) : match_obj :=
  let m := firstn (length s - length rest) s in
  MatchObj m [(n, m)].

(** ** Spans

    The vocabulary of the span model: a scan cuts the text into plain
    text, literals and comments; stripping keeps the first two. *)

Inductive kind : Type :=
| Plain | Literal | BlockComment | LineComment | MarkupComment.

Definition span : Type := kind * text.

Definition is_comment (k : kind) : bool :=
  match k with
  | Plain | Literal => false
  | BlockComment | LineComment | MarkupComment => true
  end.

(** The text the spans were cut from. *)
Definition source (sp : list span) : text := concat (map snd sp).

(** The spans with every comment replaced by nothing. *)
Definition stripped (sp : list span) : text :=
  concat (map snd (filter (fun x => negb (is_comment (fst x))) sp)).

Definition head_is (p : char -> bool) (s : text) : bool :=
  match s with
  | c :: _ => p c
  | [] => false
  end.

(** Plain Script text followed by [following]: no quote and no backtick,
    and no [/] that has a [/] or an asterisk right after it. *)
Fixpoint js_plain (t following : text) : bool :=
  match t with
  | [] => true
  | c :: t' =>
    negb (c =? SQUOTE)%N && negb (c =? DQUOTE)%N && negb (c =? BACKTICK)%N
    && negb ((c =? SLASH)%N
             && head_is (fun d => (d =? SLASH)%N || (d =? STAR)%N)
                        (t' ++ following))
    && js_plain t' following
  end.

(** Plain Config text: no quote and no [#]. *)
Definition yml_plain (t : text) : bool :=
  forallb (fun c => negb (c =? SQUOTE)%N && negb (c =? DQUOTE)%N
                    && negb (c =? HASH)%N) t.

(** Plain Stylesheet or Markup text followed by [following]: the comment
    opener starts nowhere in it. *)
Fixpoint no_opener (opener t following : text) : bool :=
  match t with
  | [] => true
  | _ :: t' =>
    match strip_prefix opener (t ++ following) with
    | Some _ => false
    | None => no_opener opener t' following
    end
  end.

(** The body of a quoted literal as the pattern reads it: no bare quote
    [q]; a backslash takes the next character with it, which is not \n. *)
Fixpoint quoted_body (q : char) (b : text) : bool :=
  match b with
  | [] => true
  | c :: b' =>
    if (c =? q)%N then false
    else if (c =? BACKSLASH)%N then
      match b' with
      | d :: b'' => negb (d =? LF)%N && quoted_body q b''
      | [] => false
      end
    else quoted_body q b'
  end.

(** The body of a literal in the words of the specification (section 4.1):
    a backslash escapes the character that follows it, whatever it is, and
    the literal ends at the first quote [q] that is not escaped. *)
Fixpoint spec_body (q : char) (b : text) : bool :=
  match b with
  | [] => true
  | c :: b' =>
    if (c =? q)%N then false
    else if (c =? BACKSLASH)%N then
      match b' with
      | _ :: b'' => spec_body q b''
      | [] => false
      end
    else spec_body q b'
  end.

(** The text after an opening quote [q] has no closing quote in the words
    of the specification: every [q] in it is escaped. *)
Fixpoint spec_unterminated (q : char) (s : text) : bool :=
  match s with
  | [] => true
  | c :: s' =>
    if (c =? q)%N then false
    else if (c =? BACKSLASH)%N then
      match s' with
      | _ :: s'' => spec_unterminated q s''
      | [] => true
      end
    else spec_unterminated q s'
  end.

(** The first [closer] in [body ++ closer] is the one at the end. *)
Definition closes_at_end (closer body : text) : bool :=
  match find_after closer (body ++ closer) with
  | Some [] => true
  | _ => false
  end.

Definition no_LF (t : text) : bool := forallb (fun c => negb (c =? LF)%N) t.

(** Nothing or a \n follows. *)
Definition at_eol (following : text) : bool :=
  match following with
  | [] => true
  | c :: _ => (c =? LF)%N
  end.

(** A well-formed Script span of kind [k] with text [t], followed by
    [following]. *)
Inductive js_span : kind -> text -> text -> Prop :=
| js_span_plain t following :
    js_plain t following = true -> js_span Plain t following
| js_span_squoted b following :
    quoted_body SQUOTE b = true ->
    js_span Literal (SQUOTE :: b ++ [SQUOTE]) following
| js_span_dquoted b following :
    quoted_body DQUOTE b = true ->
    js_span Literal (DQUOTE :: b ++ [DQUOTE]) following
| js_span_template b following :
    spec_body BACKTICK b = true ->
    js_span Literal (BACKTICK :: b ++ [BACKTICK]) following
| js_span_block b following :
    closes_at_end (str "*/") b = true ->
    js_span BlockComment (str "/*" ++ b ++ str "*/") following
| js_span_line b following :
    no_LF b = true -> at_eol following = true ->
    js_span LineComment (str "//" ++ b) following.

Inductive yml_span : kind -> text -> text -> Prop :=
| yml_span_plain t following :
    yml_plain t = true -> yml_span Plain t following
| yml_span_squoted b following :
    quoted_body SQUOTE b = true ->
    yml_span Literal (SQUOTE :: b ++ [SQUOTE]) following
| yml_span_dquoted b following :
    quoted_body DQUOTE b = true ->
    yml_span Literal (DQUOTE :: b ++ [DQUOTE]) following
| yml_span_line b following :
    no_LF b = true -> at_eol following = true ->
    yml_span LineComment (HASH :: b) following.

(** Stylesheet and Markup spans: plain text and [opener ... closer]. *)
Inductive delimited_span (opener closer : text) (ck : kind)
  : kind -> text -> text -> Prop :=
| delimited_span_plain t following :
    no_opener opener t following = true ->
    delimited_span opener closer ck Plain t following
| delimited_span_comment b following :
    closes_at_end closer b = true ->
    delimited_span opener closer ck ck (opener ++ b ++ closer) following.

(** A list of spans followed by [after], each well formed in front of
    what follows it. *)
Fixpoint lexed (ok : kind -> text -> text -> Prop) (sp : list span)
    (after : text) : Prop :=
  match sp with
  | [] => True
  | (k, t) :: sp' => ok k t (source sp' ++ after) /\ lexed ok sp' after
  end.

(** ** Dialects

    [process_file] picks the stripper from the extension; the dialect names
    of the specification index the same four functions. *)

Inductive dialect : Type := Script | Markup | Stylesheet | Config.

Definition remove_comments (d : dialect) : text -> text :=
  match d with
  | Script => remove_js_ts_comments
  | Markup => remove_html_comments
  | Stylesheet => remove_css_comments
  | Config => remove_yml_comments
  end.

Definition dialect_of (extension : text) : option dialect :=
  if list_eq_dec N.eq_dec extension (str ".ts") then Some Script
  else if list_eq_dec N.eq_dec extension (str ".tsx") then Some Script
  else if list_eq_dec N.eq_dec extension (str ".html") then Some Markup
  else if list_eq_dec N.eq_dec extension (str ".css") then Some Stylesheet
  else if list_eq_dec N.eq_dec extension (str ".yml") then Some Config
  else None.

(** The per-file transform of a dialect: stripping, then compaction. *)
Definition transform (d : dialect) (content : text) : text :=
  compact (remove_comments d content).

(** The well-formed spans of a dialect. *)
Definition span_ok (d : dialect) : kind -> text -> text -> Prop :=
  match d with
  | Script => js_span
  | Markup => delimited_span (str "<!--") (str "-->") MarkupComment
  | Stylesheet => delimited_span (str "/*") (str "*/") BlockComment
  | Config => yml_span
  end.

(** The delimiters of the comment form that needs a closer. *)
Definition block_delimiters (d : dialect) : option (text * text) :=
  match d with
  | Script | Stylesheet => Some (str "/*", str "*/")
  | Markup => Some (str "<!--", str "-->")
  | Config => None
  end.


(** The quote characters of a dialect's literals. *)
Definition quotes (d : dialect) : list char :=
  match d with
  | Script => [SQUOTE; DQUOTE; BACKTICK]
  | Config => [SQUOTE; DQUOTE]
  | Markup | Stylesheet => []
  end.

(** The first scenario of section 8.6 of the specification. *)
Definition scenario_input : text :=
  str "const x = " ++ [DQUOTE] ++ str "a // not a comment" ++ [DQUOTE]
  ++ str "; // real comment" ++ [LF] ++ str "let y = 1;".

Definition scenario_line1 : text :=
  str "const x = " ++ [DQUOTE] ++ str "a // not a comment" ++ [DQUOTE]
  ++ str ";".

Definition scenario_line2 : text := str "let y = 1;".

(** The text after an opening quote [q] never closes the literal: for a
    single or a double quote every [q] in it is escaped; for a backtick,
    where the pattern falls back to reading a backslash as an ordinary
    character, there is no backtick at all. *)
Definition never_closes (q : char) (tail : text) : bool :=
  if (q =? BACKTICK)%N then forallb (fun c => negb (c =? BACKTICK)%N) tail
  else spec_unterminated q tail.

(** The body of a literal that the pattern of the dialect matches. *)
Definition matched_body (q : char) (body : text) : bool :=
  if (q =? BACKTICK)%N then spec_body q body else quoted_body q body.

(** A literal with an escaped newline before a [//]. *)
Definition continued_literal : text :=
  SQUOTE :: (str "a" ++ [BACKSLASH; LF] ++ str "// b") ++ [SQUOTE].

(** A literal with an escaped newline, and after it a line comment that
    has an apostrophe in it. *)
Definition continued_body : text := str "a" ++ [BACKSLASH; LF] ++ str "b".

Definition continued_then_comment : text :=
  str "x = " ++ (SQUOTE :: continued_body ++ [SQUOTE]) ++ str "; "
  ++ str "//" ++ str " it's a comment".

(** ** Texts in which nothing is left to strip

    A reading of a Script or Config text that has no comment in it:
    where the scanner stands after each character.  [AfterSlash] is plain
    text right after a [/]; [Escaped] is a literal right after a
    backslash.  Markup and Stylesheet have no literals; [clean] looks for
    their opener in the text and does not use this reading. *)











(** ** Lines *)

(** The line has no line boundary in it. *)
Definition no_linebreak (l : text) : bool :=
  forallb (fun c => negb (Py.is_linebreak c)) l.

(** Every line closed by one \n. *)
Definition unlines (ls : list text) : text :=
  concat (map (fun l => l ++ [LF]) ls).



(** ** [main]

    [os.walk('.')] as [main] consumes it.  A directory is the list of its
    sub-directories, by name, and the names of its other entries, in the
    order in which [os.walk] lists them.  The walk is top-down: it yields
    the directory, and only then goes down into the names that are still
    in [dirs]; the loop body of [main] removes [.git] from that very list
    in between, so the walk never enters it. *)

#[warnings="-register-all"]
Inductive directory : Type :=
| Directory (dirs : list (text * directory)) (files : list text).

Definition GIT : text := str ".git".

Definition text_eqb (a b : text) : bool :=
  if list_eq_dec N.eq_dec a b then true else false.

(** The sub-directories in the order of [dirs]; [removed] records that
    [dirs.remove('.git')] has taken its one occurrence out. *)
Fixpoint walk_dirs (descend : text -> directory -> list (text * list text))
    (ds : list (text * directory)) (removed : bool)
  : list (text * list text) :=
  match ds with
  | [] => []
  | (name, sub) :: ds' =>
    if negb removed && text_eqb name GIT then walk_dirs descend ds' true
    else descend name sub ++ walk_dirs descend ds' removed
  end.

(** The pairs [(root, files)] that the loop of [main] sees. *)
Fixpoint walk (top : text) (d : directory) : list (text * list text) :=
  match d with
  | Directory dirs files =>
    (top, files)
    :: walk_dirs (fun name sub => walk (OsPath.join top name) sub) dirs false
  end.

(** [any(file.endswith(ext) for ext in target_extensions)]. *)
Definition selected (file : text) : bool :=
  existsb (fun ext => Py.endswith file ext) target_extensions.

(** The inner loop of [main] over the files of one directory. *)
Definition process_files (root : text) (files : list text)
    (fs : filesystem) : filesystem :=
  fold_left
    (fun fs file =>
       if selected file then process_file fs (OsPath.join root file) else fs)
    files fs.

Definition main (tree : directory) (fs : filesystem) : filesystem :=
  fold_left (fun fs '(root, files) => process_files root files fs)
            (walk (str ".") tree) fs.

(** The tree with the one pruned [.git] of every directory emptied. *)
Fixpoint map_dirs (f : directory -> directory)
    (ds : list (text * directory)) (removed : bool)
  : list (text * directory) :=
  match ds with
  | [] => []
  | (name, sub) :: ds' =>
    if negb removed && text_eqb name GIT
    then (name, Directory [] []) :: map_dirs f ds' true
    else (name, f sub) :: map_dirs f ds' removed
  end.

Fixpoint empty_git (d : directory) : directory :=
  match d with
  | Directory dirs files => Directory (map_dirs empty_git dirs false) files
  end.

(** ** What the strippers delete

    Spans in which only the comments are constrained: each comment span is
    a well-formed comment of the dialect in front of what follows it. *)
Fixpoint comments_ok (ok : kind -> text -> text -> Prop) (sp : list span)
  : Prop :=
  match sp with
  | [] => True
  | (k, t) :: sp' =>
    (is_comment k = true -> ok k t (source sp')) /\ comments_ok ok sp'
  end.

(** [out] is [inp] with some of its characters deleted. *)
Inductive deleted_from : text -> text -> Prop :=
| deleted_nil : deleted_from [] []
| deleted_keep c out inp :
    deleted_from out inp -> deleted_from (c :: out) (c :: inp)
| deleted_drop c out inp :
    deleted_from out inp -> deleted_from out (c :: inp).

(** The texts with which a comment of the dialect starts. *)
Definition openers (d : dialect) : list text :=
  match d with
  | Script => [str "/*"; str "//"]
  | Markup => [str "<!--"]
  | Stylesheet => [str "/*"]
  | Config => [str "#"]
  end.

(** ** What the compaction keeps *)

(** The characters that [str.strip] does not remove. *)
Definition nonspace (c : char) : bool := negb (Py.isspace c).

(** The paths that [main] hands to [process_file], in the order of the
    run. *)
Definition selected_paths (tree : directory) : list text :=
  flat_map (fun '(root, files) =>
              map (OsPath.join root) (filter selected files))
           (walk (str ".") tree).

(* ================================================================== *)
(** * Properties *)

(** ** The model on the scenarios of the specification *)

Example scenario_block :
  final_content (str ".ts")
    (str "/* block" ++ [LF] ++ str "spanning" ++ [LF] ++ str "lines */"
     ++ [LF] ++ str "foo();")
  = Some (str "foo();" ++ [LF]).
Proof. vm_compute. reflexivity. Qed.

Example scenario_template :
  final_content (str ".ts") (str "const t = `has /* not comment */ inside`;")
  = Some (str "const t = `has /* not comment */ inside`;" ++ [LF]).
Proof. vm_compute. reflexivity. Qed.

Example scenario_markup :
  final_content (str ".html") (str "<div><!-- note -->text</div>")
  = Some (str "<div>text</div>" ++ [LF]).
Proof. vm_compute. reflexivity. Qed.

(** The lazy star stops at the first closer. *)
Example first_closer_wins :
  remove_css_comments (str "a /* x */ b */ c") = str "a  b */ c".
Proof. vm_compute. reflexivity. Qed.

(** The search for the end of a template literal backtracks: when no
    other backtick follows, an escaped backtick closes the literal. *)
Example escaped_backtick_closes :
  remove_js_ts_comments (str "x = `a" ++ [BACKSLASH] ++ str "` // c")
  = str "x = `a" ++ [BACKSLASH] ++ str "` ".
Proof. vm_compute. reflexivity. Qed.

(** [os.path.splitext] ignores the leading dots of a file name. *)
Example splitext_examples :
  OsPath.splitext (str "./src/app.component.ts")
  = (str "./src/app.component", str ".ts")
  /\ OsPath.splitext (str "./a.b/.ts") = (str "./a.b/.ts", [])
  /\ OsPath.splitext (str "./a.b/README") = (str "./a.b/README", []).
Proof. vm_compute. auto. Qed.

(** [str.splitlines] on the boundaries it knows. *)
Example splitlines_examples :
  Py.splitlines (str "a" ++ [CR; LF] ++ str "b" ++ [CR; CR] ++ str "c" ++ [LF])
  = [str "a"; str "b"; []; str "c"]
  /\ Py.splitlines [] = []
  /\ Py.splitlines [LF] = [[]].
Proof. vm_compute. auto. Qed.

(** ** The matcher computes the scanners *)

Section Refinement.

Variable R : Type.

Lemma exec_lit (t : text) (s : text) (g : groups) (k : cont R) :
  t <> [] ->
  exec (lit t) s g k =
  match strip_prefix t s with Some rest => k rest g | None => None end.
Proof.
  revert s. induction t as [|c t IH]; intros s Hne; [congruence|].
  destruct t as [|c' t].
  - simpl. destruct s as [|x s]; [reflexivity|]. now destruct (x =? c)%N.
  - change (lit (c :: c' :: t)) with (Seq (Chr c) (lit (c' :: t))).
    cbn [exec strip_prefix]. destruct s as [|x s]; [reflexivity|].
    destruct (x =? c)%N; [|reflexivity]. apply IH. discriminate.
Qed.

Lemma ltb_tail (A : Type) (c : A) (s : list A) :
  (length s <? length (c :: s)) = true.
Proof. apply Nat.ltb_lt. simpl. lia. Qed.

Lemma ltb_tail2 (A : Type) (c d : A) (s : list A) :
  (length s <? length (c :: d :: s)) = true.
Proof. apply Nat.ltb_lt. simpl. lia. Qed.

(** [.*] followed by something that accepts the end of the line. *)
Lemma star_greedy_dot (k : cont R) (r : R) (fuel : nat) :
  forall (s : text) (g : groups),
  length s <= fuel ->
  k (skip_line s) g = Some r ->
  star_greedy (exec (R:=R) Dot) fuel s g k = Some r.
Proof.
  set (body := exec (R:=R) Dot).
  assert (Hb : forall c s g k, body (c :: s) g k
                = if (c =? LF)%N then None else k s g) by reflexivity.
  assert (Hn : forall g k, body [] g k = None) by reflexivity.
  clearbody body.
  induction fuel as [|f IH]; intros s g Hlen Hk.
  - destruct s; [exact Hk | simpl in Hlen; lia].
  - destruct s as [|c s]; cbn [star_greedy].
    + rewrite Hn. exact Hk.
    + rewrite Hb. simpl in Hk.
      destruct (c =? LF)%N eqn:E; [exact Hk|].
      rewrite ltb_tail, (IH s g); [reflexivity | simpl in Hlen; lia | exact Hk].
Qed.

(** [[\s\S]*?] followed by a fixed closer, when the rest accepts. *)
Lemma star_lazy_any (any : char -> bool) (closer : text)
    (f : text -> groups -> R) (k : cont R) (fuel : nat) :
  (forall c, any c = true) ->
  closer <> [] ->
  (forall s g, k s g = Some (f s g)) ->
  forall (s : text) (g : groups),
  length s <= fuel ->
  star_lazy (exec (R:=R) (Cls any)) fuel s g
    (fun s' g' => exec (lit closer) s' g' k)
  = option_map (fun rest => f rest g) (find_after closer s).
Proof.
  intros Hany Hne Hk.
  set (body := exec (R:=R) (Cls any)).
  assert (Hb : forall c s g k, body (c :: s) g k = k s g).
  { intros c s g k'. unfold body. cbn [exec]. now rewrite Hany. }
  assert (Hn : forall g k, body [] g k = None) by reflexivity.
  clearbody body.
  induction fuel as [|n IH]; intros s g Hlen.
  - destruct s; [|simpl in Hlen; lia].
    cbn [star_lazy find_after]. rewrite exec_lit by exact Hne.
    destruct (strip_prefix closer []); [now rewrite Hk|reflexivity].
  - cbn [star_lazy]. rewrite exec_lit by exact Hne.
    destruct s as [|c s]; cbn [find_after].
    + destruct (strip_prefix closer []); [now rewrite Hk|]. now rewrite Hn.
    + destruct (strip_prefix closer (c :: s)); [now rewrite Hk|].
      rewrite Hb, ltb_tail.
      apply IH. simpl in Hlen; lia.
Qed.

(** The body of a quoted literal is scanned without choice. *)
Lemma star_greedy_quoted (q : char) (k : cont R) (fuel : nat) :
  q <> BACKSLASH ->
  forall (s : text) (g : groups),
  length s <= fuel ->
  star_greedy
    (exec (R:=R) (Alt (Seq (Chr BACKSLASH) Dot) (Cls (none_of [BACKSLASH; q]))))
    fuel s g (fun s' g' => exec (Chr q) s' g' k)
  = match scan_quoted q s with Some rest => k rest g | None => None end.
Proof.
  intros Hq.
  set (body := exec (R:=R) _).
  assert (Hb : forall c s g k, body (c :: s) g k =
    match (if (c =? BACKSLASH)%N
           then match s with
                | d :: s' => if (d =? LF)%N then None else k s' g
                | [] => None
                end
           else None) with
    | Some r => Some r
    | None => if none_of [BACKSLASH; q] c then k s g else None
    end) by reflexivity.
  assert (Hn : forall g k, body [] g k = None) by reflexivity.
  clearbody body.
  set (K := fun s' g' => exec (Chr q) s' g' k).
  assert (HK : forall c s g, K (c :: s) g
               = if (c =? q)%N then k s g else None) by reflexivity.
  assert (HKn : forall g, K [] g = None) by reflexivity.
  clearbody K.
  induction fuel as [|n IH]; intros s g Hlen.
  - destruct s; [cbn; now rewrite HKn | simpl in Hlen; lia].
  - destruct s as [|c s]; cbn [star_greedy scan_quoted].
    { now rewrite Hn, HKn. }
    rewrite Hb, HK. unfold none_of. cbn [existsb].
    destruct (N.eqb_spec c q) as [->|Hcq].
    + (* the closing quote: no iteration applies *)
      destruct (N.eqb_spec q BACKSLASH); [contradiction|]. reflexivity.
    + destruct (N.eqb_spec c BACKSLASH) as [->|Hcb]; cbn [orb negb].
      * (* an escape *)
        destruct s as [|d s]; [reflexivity|].
        destruct (d =? LF)%N; [reflexivity|].
        rewrite ltb_tail2, IH by (simpl in Hlen; lia).
        now destruct (scan_quoted q s) as [rest|]; [destruct (k rest g)|].
      * rewrite ltb_tail, IH by (simpl in Hlen; lia).
        now destruct (scan_quoted q s) as [rest|]; [destruct (k rest g)|].
Qed.

(** The body of a template literal: the first successful path. *)
Lemma star_greedy_template (f : text -> groups -> R) (k : cont R)
    (fuel : nat) :
  (forall s g, k s g = Some (f s g)) ->
  forall (s : text) (g : groups),
  length s <= fuel ->
  star_greedy
    (exec (R:=R) (Alt (Seq (Chr BACKSLASH) Dot) (Cls (none_of [BACKTICK]))))
    fuel s g (fun s' g' => exec (Chr BACKTICK) s' g' k)
  = option_map (fun rest => f rest g) (scan_template s).
Proof.
  intros Hk.
  set (body := exec (R:=R) _).
  assert (Hb : forall c s g k, body (c :: s) g k =
    match (if (c =? BACKSLASH)%N
           then match s with
                | d :: s' => if (d =? LF)%N then None else k s' g
                | [] => None
                end
           else None) with
    | Some r => Some r
    | None => if none_of [BACKTICK] c then k s g else None
    end) by reflexivity.
  assert (Hn : forall g k, body [] g k = None) by reflexivity.
  clearbody body.
  set (K := fun s' g' => exec (Chr BACKTICK) s' g' k).
  assert (HK : forall c s g, K (c :: s) g
               = if (c =? BACKTICK)%N then k s g else None) by reflexivity.
  assert (HKn : forall g, K [] g = None) by reflexivity.
  clearbody K.
  induction fuel as [|n IH]; intros s g Hlen.
  - destruct s; [cbn; now rewrite HKn | simpl in Hlen; lia].
  - destruct s as [|c s]; cbn [star_greedy scan_template].
    { now rewrite Hn, HKn. }
    rewrite Hb, HK. unfold none_of. cbn [existsb].
    destruct (N.eqb_spec c BACKTICK) as [->|Hct].
    + cbn. now rewrite Hk.
    + destruct (N.eqb_spec c BACKSLASH) as [->|Hcb]; cbn [orb negb].
      * rewrite ltb_tail, (IH s) by (simpl in Hlen; lia).
        destruct s as [|d s]; [reflexivity|].
        destruct (d =? LF)%N.
        { now destruct (scan_template (d :: s)). }
        rewrite ltb_tail2, (IH s) by (simpl in Hlen; lia).
        destruct (scan_template s); [reflexivity|].
        now destruct (scan_template (d :: s)).
      * rewrite ltb_tail, IH by (simpl in Hlen; lia).
        now destruct (scan_template s).
Qed.

End Refinement.

(** ** One match at the head of the text *)

Section Patterns.

Variable R : Type.

Lemma exec_quoted (q : char) (s : text) (g : groups) (k : cont R) :
  q <> BACKSLASH ->
  exec (quoted q) s g k =
  match s with
  | c :: s' =>
    if (c =? q)%N
    then match scan_quoted q s' with Some rest => k rest g | None => None end
    else None
  | [] => None
  end.
Proof.
  intros Hq. destruct s as [|c s']; [reflexivity|].
  unfold quoted. cbn [exec]. destruct (c =? q)%N; [|reflexivity].
  now apply star_greedy_quoted.
Qed.

Lemma exec_template (f : text -> groups -> R) (s : text) (g : groups)
    (k : cont R) :
  (forall s g, k s g = Some (f s g)) ->
  exec template s g k =
  match s with
  | c :: s' =>
    if (c =? BACKTICK)%N
    then option_map (fun rest => f rest g) (scan_template s')
    else None
  | [] => None
  end.
Proof.
  intros Hk. destruct s as [|c s']; [reflexivity|].
  unfold template. cbn [exec]. destruct (c =? BACKTICK)%N; [|reflexivity].
  now apply star_greedy_template.
Qed.

Lemma any_char (c : char) : cls_s c || cls_S c = true.
Proof. unfold cls_s, cls_S. apply orb_negb_r. Qed.

Lemma exec_delimited (opener closer : text) (f : text -> groups -> R)
    (s : text) (g : groups) (k : cont R) :
  opener <> [] -> closer <> [] ->
  (forall s g, k s g = Some (f s g)) ->
  exec (Seq (lit opener)
         (Seq (StarLazy (Cls (fun c => cls_s c || cls_S c))) (lit closer)))
       s g k
  = option_map (fun rest => f rest g) (delimited opener closer s).
Proof.
  intros Ho Hc Hk. cbn [exec]. rewrite exec_lit by exact Ho.
  unfold delimited. destruct (strip_prefix opener s) as [s'|]; [|reflexivity].
  apply star_lazy_any; auto using any_char.
Qed.

Lemma exec_block_comment (f : text -> groups -> R) (s : text) (g : groups)
    (k : cont R) :
  (forall s g, k s g = Some (f s g)) ->
  exec block_comment s g k
  = option_map (fun rest => f rest g) (delimited (str "/*") (str "*/") s).
Proof.
  intros Hk.
  rewrite <- (@exec_delimited (str "/*") (str "*/") f s g k);
    [reflexivity | discriminate | discriminate | exact Hk].
Qed.

Lemma skip_line_eol (s : text) (g : groups) (k : cont R) :
  exec Eol (skip_line s) g k = k (skip_line s) g.
Proof.
  induction s as [|c s IH]; [reflexivity|].
  simpl. destruct (c =? LF)%N eqn:E; [|exact IH].
  cbn [exec]. now rewrite E.
Qed.

Lemma exec_line_comment (f : text -> groups -> R) (s : text) (g : groups)
    (k : cont R) :
  (forall s g, k s g = Some (f s g)) ->
  exec line_comment s g k =
  match s with
  | c :: s1 =>
    if (c =? SLASH)%N then
      match s1 with
      | d :: s' => if (d =? SLASH)%N then Some (f (skip_line s') g) else None
      | [] => None
      end
    else None
  | [] => None
  end.
Proof.
  intros Hk. unfold line_comment.
  destruct s as [|c [|d s']]; cbn [exec].
  - reflexivity.
  - now destruct (c =? SLASH)%N.
  - destruct (c =? SLASH)%N; [|reflexivity].
    destruct (d =? SLASH)%N; [|reflexivity].
    apply star_greedy_dot; [lia | apply Hk].
Qed.

Lemma exec_hash_comment (f : text -> groups -> R) (s : text) (g : groups)
    (k : cont R) :
  (forall s g, k s g = Some (f s g)) ->
  exec hash_comment s g k =
  match s with
  | c :: s' => if (c =? HASH)%N then Some (f (skip_line s') g) else None
  | [] => None
  end.
Proof.
  intros Hk. unfold hash_comment.
  destruct s as [|c s']; cbn [exec]; [reflexivity|].
  destruct (c =? HASH)%N; [|reflexivity].
  apply star_greedy_dot; [lia|]. rewrite <- Hk. exact (skip_line_eol s' g k).
Qed.

End Patterns.

Lemma delimited_block (s : text) :
  delimited (str "/*") (str "*/") s =
  match s with
  | c :: s1 =>
    if (c =? SLASH)%N then
      match s1 with
      | d :: s' => if (d =? STAR)%N then find_after (str "*/") s' else None
      | [] => None
      end
    else None
  | [] => None
  end.
Proof.
  unfold delimited. destruct s as [|c [|d s']]; [reflexivity| |]; simpl;
    change 47%N with SLASH; change 42%N with STAR;
    destruct (c =? SLASH)%N; try reflexivity.
  now destruct (d =? STAR)%N.
Qed.

Theorem match_at_js (s : text) :
  match_at js_ts_pattern false s
  = option_map (fun '(n, rest) => (match_of s n rest, rest)) (js_lex s).
Proof.
  unfold match_at, js_ts_pattern. cbn [exec andb].
  rewrite !exec_quoted by discriminate.
  rewrite (exec_template
             (fun s' g' => (MatchObj (firstn (length s - length s') s)
                              ((1, firstn (length s - length s') s) :: g'), s')))
    by reflexivity.
  rewrite (exec_block_comment
             (fun s' g' => (MatchObj (firstn (length s - length s') s)
                              ((2, firstn (length s - length s') s) :: g'), s')))
    by reflexivity.
  rewrite (exec_line_comment
             (fun s' g' => (MatchObj (firstn (length s - length s') s)
                              ((3, firstn (length s - length s') s) :: g'), s')))
    by reflexivity.
  rewrite delimited_block.
  destruct s as [|c s']; [reflexivity|].
  unfold js_lex, match_of.
  destruct (N.eqb_spec c SQUOTE) as [->|H1].
  { now destruct (scan_quoted SQUOTE s'). }
  destruct (N.eqb_spec c DQUOTE) as [->|H2].
  { now destruct (scan_quoted DQUOTE s'). }
  destruct (N.eqb_spec c BACKTICK) as [->|H3].
  { now destruct (scan_template s'). }
  destruct (N.eqb_spec c SLASH) as [->|H4]; [|reflexivity].
  destruct s' as [|d s'']; [reflexivity|].
  destruct (N.eqb_spec d STAR) as [->|H5].
  { now destruct (find_after (str "*/") s''). }
  now destruct (N.eqb_spec d SLASH).
Qed.

Theorem match_at_yml (s : text) :
  match_at yml_pattern false s
  = option_map (fun '(n, rest) => (match_of s n rest, rest)) (yml_lex s).
Proof.
  unfold match_at, yml_pattern. cbn [exec andb].
  rewrite !exec_quoted by discriminate.
  rewrite (exec_hash_comment
             (fun s' g' => (MatchObj (firstn (length s - length s') s)
                              ((2, firstn (length s - length s') s) :: g'), s')))
    by reflexivity.
  destruct s as [|c s']; [reflexivity|].
  unfold yml_lex, match_of.
  destruct (N.eqb_spec c SQUOTE) as [->|H1].
  { now destruct (scan_quoted SQUOTE s'). }
  destruct (N.eqb_spec c DQUOTE) as [->|H2].
  { now destruct (scan_quoted DQUOTE s'). }
  now destruct (N.eqb_spec c HASH).
Qed.

Theorem match_at_css (s : text) :
  match_at block_comment false s
  = option_map (fun rest => (MatchObj (firstn (length s - length rest) s) [], rest))
      (delimited (str "/*") (str "*/") s).
Proof.
  unfold match_at. cbn [andb].
  now rewrite (exec_block_comment
    (fun s' g' => (MatchObj (firstn (length s - length s') s) g', s'))).
Qed.

Theorem match_at_html (s : text) :
  match_at html_pattern false s
  = option_map (fun rest => (MatchObj (firstn (length s - length rest) s) [], rest))
      (delimited (str "<!--") (str "-->") s).
Proof.
  unfold match_at, html_pattern. cbn [andb].
  rewrite (@exec_delimited _ (str "<!--") (str "-->")
    (fun s' g' => (MatchObj (firstn (length s - length s') s) g', s')));
    [reflexivity | discriminate | discriminate | reflexivity].
Qed.

(** ** What a match consumes *)

Lemma strip_prefix_app (t s rest : text) :
  strip_prefix t s = Some rest <-> s = t ++ rest.
Proof.
  revert s. induction t as [|c t IH]; intros s; simpl.
  - split; congruence.
  - destruct s as [|x s]; [split; discriminate|].
    destruct (N.eqb_spec x c) as [->|Hx].
    + rewrite IH. split; congruence.
    + split; [discriminate | congruence].
Qed.

Lemma find_after_split (term s rest : text) :
  find_after term s = Some rest ->
  exists m, s = m ++ term ++ rest /\ find_after term (m ++ term) = Some [].
Proof.
  revert rest. induction s as [|c s IH]; intros rest; cbn [find_after].
  - destruct (strip_prefix term []) as [r|] eqn:E; [|discriminate].
    intros [= ->]. apply strip_prefix_app in E. exists [].
    split; [exact E|].
    destruct term; [reflexivity | discriminate].
  - destruct (strip_prefix term (c :: s)) as [r|] eqn:E.
    + intros [= ->]. apply strip_prefix_app in E. exists []. split; [exact E|].
      simpl. destruct term as [|t0 term]; [reflexivity|].
      cbn [find_after].
      replace (strip_prefix (t0 :: term) (t0 :: term)) with (Some (@nil char));
        [reflexivity|].
      symmetry. apply strip_prefix_app. now rewrite app_nil_r.
    + intros H. destruct (IH _ H) as (m & -> & Hm).
      exists (c :: m). split; [reflexivity|].
      cbn [app find_after].
      destruct (strip_prefix term (c :: m ++ term)) as [r|] eqn:E'; [|exact Hm].
      exfalso. apply strip_prefix_app in E'.
      assert (E2 : strip_prefix term (c :: m ++ term ++ rest) = Some (r ++ rest)).
      { apply strip_prefix_app.
        transitivity ((c :: m ++ term) ++ rest);
          [simpl; now rewrite <- app_assoc|].
        rewrite E'. now rewrite <- app_assoc. }
      congruence.
Qed.

Lemma find_after_length (term s rest : text) :
  find_after term s = Some rest -> length rest + length term <= length s.
Proof.
  intros H. destruct (find_after_split _ _ H) as (m & -> & _).
  rewrite !length_app. lia.
Qed.

Lemma skip_line_split (s : text) :
  exists m, s = m ++ skip_line s /\ forallb (fun c => negb (c =? LF)%N) m = true.
Proof.
  induction s as [|c s (m & Hm & Hall)]; [now exists []|].
  simpl. destruct (c =? LF)%N eqn:E.
  - now exists [].
  - exists (c :: m). split; [simpl; congruence|]. simpl. now rewrite E.
Qed.

Lemma scan_quoted_split (q : char) (n : nat) :
  forall s rest, length s <= n ->
  scan_quoted q s = Some rest -> exists body, s = body ++ q :: rest.
Proof.
  induction n as [|n IH]; intros s rest Hlen.
  - destruct s; [discriminate | simpl in Hlen; lia].
  - destruct s as [|c s]; [discriminate|]. cbn [scan_quoted].
    destruct (N.eqb_spec c q) as [->|Hc].
    + intros [= ->]. now exists [].
    + destruct (c =? BACKSLASH)%N.
      * destruct s as [|d s]; [discriminate|].
        destruct (d =? LF)%N; [discriminate|]. intros H.
        destruct (IH s rest) as (b & ->); [simpl in Hlen; lia | exact H |].
        now exists (c :: d :: b).
      * intros H.
        destruct (IH s rest) as (b & ->); [simpl in Hlen; lia | exact H |].
        now exists (c :: b).
Qed.

Lemma scan_template_split (n : nat) :
  forall s rest, length s <= n ->
  scan_template s = Some rest -> exists body, s = body ++ BACKTICK :: rest.
Proof.
  induction n as [|n IH]; intros s rest Hlen.
  - destruct s; [discriminate | simpl in Hlen; lia].
  - destruct s as [|c s]; [discriminate|]. cbn [scan_template].
    destruct (N.eqb_spec c BACKTICK) as [->|Hc].
    + intros [= ->]. now exists [].
    + assert (Hs : scan_template s = Some rest ->
                   exists body, c :: s = body ++ BACKTICK :: rest).
      { intros H. destruct (IH s rest) as (b & ->);
          [simpl in Hlen; lia | exact H |]. now exists (c :: b). }
      destruct (c =? BACKSLASH)%N; [|exact Hs].
      destruct s as [|d s]; [discriminate|].
      destruct (d =? LF)%N; [exact Hs|].
      destruct (scan_template s) as [r|] eqn:E; [|exact Hs].
      intros [= ->].
      destruct (IH s rest) as (b & ->); [simpl in Hlen; lia | exact E |].
      now exists (c :: d :: b).
Qed.

Lemma firstn_consumed (m rest : text) :
  firstn (length (m ++ rest) - length rest) (m ++ rest) = m.
Proof.
  rewrite length_app. replace (length m + length rest - length rest)
    with (length m + 0) by lia.
  rewrite firstn_app_2. simpl. apply app_nil_r.
Qed.

(** A match of the Script pattern is a non-empty prefix of the text. *)
Lemma js_lex_split (s : text) (n : nat) (rest : text) :
  js_lex s = Some (n, rest) -> exists m, s = m ++ rest /\ m <> [].
Proof.
  unfold js_lex. destruct s as [|c s]; [discriminate|].
  assert (Hq : forall q, option_map (pair 1) (scan_quoted q s) = Some (n, rest) ->
               exists m, c :: s = m ++ rest /\ m <> []).
  { intros q H. destruct (scan_quoted q s) as [r|] eqn:E; [|discriminate].
    injection H as <- <-.
    destruct (scan_quoted_split q (n:=length s) s (le_n _) E) as (b & ->).
    exists (c :: b ++ [q]). split; [|discriminate].
    simpl. now rewrite <- app_assoc. }
  destruct (c =? SQUOTE)%N; [now apply Hq|].
  destruct (c =? DQUOTE)%N; [now apply Hq|].
  destruct (c =? BACKTICK)%N.
  { intros H. destruct (scan_template s) as [r|] eqn:E; [|discriminate].
    injection H as <- <-.
    destruct (scan_template_split (n:=length s) s (le_n _) E) as (b & ->).
    exists (c :: b ++ [BACKTICK]). split; [|discriminate].
    simpl. now rewrite <- app_assoc. }
  destruct (c =? SLASH)%N; [|discriminate].
  destruct s as [|d s]; [discriminate|].
  destruct (d =? STAR)%N.
  { intros H. destruct (find_after (str "*/") s) as [r|] eqn:E; [|discriminate].
    injection H as <- <-.
    destruct (find_after_split _ _ E) as (m & -> & _).
    exists (c :: d :: m ++ str "*/"). split; [|discriminate].
    simpl. now rewrite <- !app_assoc. }
  destruct (d =? SLASH)%N; [|discriminate].
  intros [= <- <-]. destruct (skip_line_split s) as (m & Hm & _).
  exists (c :: d :: m). split; [|discriminate]. simpl. congruence.
Qed.

Lemma yml_lex_split (s : text) (n : nat) (rest : text) :
  yml_lex s = Some (n, rest) -> exists m, s = m ++ rest /\ m <> [].
Proof.
  unfold yml_lex. destruct s as [|c s]; [discriminate|].
  assert (Hq : forall q, option_map (pair 1) (scan_quoted q s) = Some (n, rest) ->
               exists m, c :: s = m ++ rest /\ m <> []).
  { intros q H. destruct (scan_quoted q s) as [r|] eqn:E; [|discriminate].
    injection H as <- <-.
    destruct (scan_quoted_split q (n:=length s) s (le_n _) E) as (b & ->).
    exists (c :: b ++ [q]). split; [|discriminate].
    simpl. now rewrite <- app_assoc. }
  destruct (c =? SQUOTE)%N; [now apply Hq|].
  destruct (c =? DQUOTE)%N; [now apply Hq|].
  destruct (c =? HASH)%N; [|discriminate].
  intros [= <- <-]. destruct (skip_line_split s) as (m & Hm & _).
  exists (c :: m). split; [|discriminate]. simpl. congruence.
Qed.

Lemma delimited_split (opener closer s rest : text) :
  delimited opener closer s = Some rest ->
  exists body, s = opener ++ body ++ closer ++ rest
               /\ find_after closer (body ++ closer) = Some [].
Proof.
  unfold delimited. destruct (strip_prefix opener s) as [s'|] eqn:E; [|discriminate].
  apply strip_prefix_app in E. subst s. intros H.
  destruct (find_after_split _ _ H) as (m & -> & Hm). now exists m.
Qed.

(** ** [re.sub] with a pattern that never matches the empty string *)

Section SubFacts.

Variable p : regex.
Variable repl : match_obj -> text.
Hypothesis consumes : forall s mo rest,
  match_at p false s = Some (mo, rest) -> length rest < length s.

Lemma sub_loop_fuel (f1 : nat) :
  forall f2 s, length s < f1 -> length s < f2 ->
  sub_loop f1 p repl false s = sub_loop f2 p repl false s.
Proof.
  induction f1 as [|f1 IH]; intros f2 s H1 H2; [lia|].
  destruct f2 as [|f2]; [lia|]. cbn [sub_loop].
  destruct (match_at p false s) as [[mo rest]|] eqn:E.
  - pose proof (consumes _ E) as Hc.
    replace (length rest <? length s) with true
      by (symmetry; now apply Nat.ltb_lt).
    f_equal. apply IH; lia.
  - destruct s as [|c s]; [reflexivity|]. f_equal.
    apply IH; simpl in *; lia.
Qed.

Lemma sub_unfold (s : text) :
  sub p repl s =
  match match_at p false s with
  | Some (mo, rest) => repl mo ++ sub p repl rest
  | None =>
    match s with
    | [] => []
    | c :: s' => c :: sub p repl s'
    end
  end.
Proof.
  unfold sub at 1. replace (2 * length s + 2) with (S (2 * length s + 1)) by lia.
  cbn [sub_loop].
  destruct (match_at p false s) as [[mo rest]|] eqn:E.
  - pose proof (consumes _ E) as Hc.
    replace (length rest <? length s) with true
      by (symmetry; now apply Nat.ltb_lt).
    f_equal. apply sub_loop_fuel; lia.
  - destruct s as [|c s]; [reflexivity|]. f_equal.
    apply sub_loop_fuel; simpl; lia.
Qed.

End SubFacts.

(** ** The four strippers, one step at a time *)

Lemma truthy_self (t : text) : (if Py.truthy t then t else []) = t.
Proof. now destruct t. Qed.

Theorem remove_js_ts_comments_step (s : text) :
  remove_js_ts_comments s =
  match js_lex s with
  | Some (n, rest) =>
    (if Nat.eqb n 1 then firstn (length s - length rest) s else [])
    ++ remove_js_ts_comments rest
  | None =>
    match s with
    | [] => []
    | c :: s' => c :: remove_js_ts_comments s'
    end
  end.
Proof.
  unfold remove_js_ts_comments. rewrite sub_unfold.
  - rewrite match_at_js. destruct (js_lex s) as [[n rest]|] eqn:E; [|reflexivity].
    cbn [option_map]. f_equal.
    unfold js_lex in E. destruct s as [|c s]; [discriminate|].
    repeat match type of E with
    | (if ?b then _ else _) = _ => destruct b
    | option_map _ ?o = _ => destruct o; [injection E as <- <-|discriminate]
    | match ?l with _ => _ end = _ => destruct l; [discriminate|]
    | Some _ = Some _ => injection E as <- <-
    | None = Some _ => discriminate
    end; try reflexivity; cbn [Nat.eqb]; unfold match_of, group; cbn;
    apply truthy_self.
  - intros t mo rest. rewrite match_at_js.
    destruct (js_lex t) as [[n r]|] eqn:E; [|discriminate].
    intros [= <- <-]. destruct (js_lex_split _ E) as (m & -> & Hm).
    rewrite length_app. destruct m; [congruence | simpl; lia].
Qed.

Theorem remove_yml_comments_step (s : text) :
  remove_yml_comments s =
  match yml_lex s with
  | Some (n, rest) =>
    (if Nat.eqb n 1 then firstn (length s - length rest) s else [])
    ++ remove_yml_comments rest
  | None =>
    match s with
    | [] => []
    | c :: s' => c :: remove_yml_comments s'
    end
  end.
Proof.
  unfold remove_yml_comments. rewrite sub_unfold.
  - rewrite match_at_yml. destruct (yml_lex s) as [[n rest]|] eqn:E; [|reflexivity].
    cbn [option_map]. f_equal.
    unfold yml_lex in E. destruct s as [|c s]; [discriminate|].
    repeat match type of E with
    | (if ?b then _ else _) = _ => destruct b
    | option_map _ ?o = _ => destruct o; [injection E as <- <-|discriminate]
    | Some _ = Some _ => injection E as <- <-
    | None = Some _ => discriminate
    end; try reflexivity; cbn [Nat.eqb]; unfold match_of, group; cbn.
    + apply truthy_self.
    + apply truthy_self.
    + now destruct (firstn _ _).
  - intros t mo rest. rewrite match_at_yml.
    destruct (yml_lex t) as [[n r]|] eqn:E; [|discriminate].
    intros [= <- <-]. destruct (yml_lex_split _ E) as (m & -> & Hm).
    rewrite length_app. destruct m; [congruence | simpl; lia].
Qed.

Lemma delimited_consumes (opener closer s rest : text) :
  opener <> [] ->
  delimited opener closer s = Some rest -> length rest < length s.
Proof.
  intros Ho H. destruct (delimited_split _ _ _ H) as (b & -> & _).
  rewrite !length_app. destruct opener; [congruence | simpl; lia].
Qed.

Theorem remove_css_comments_step (s : text) :
  remove_css_comments s =
  match delimited (str "/*") (str "*/") s with
  | Some rest => remove_css_comments rest
  | None =>
    match s with
    | [] => []
    | c :: s' => c :: remove_css_comments s'
    end
  end.
Proof.
  unfold remove_css_comments, sub_const. rewrite sub_unfold.
  - rewrite match_at_css. now destruct (delimited _ _ s).
  - intros t mo rest. rewrite match_at_css.
    destruct (delimited _ _ t) as [r|] eqn:E; [|discriminate].
    intros [= <- <-]. eapply delimited_consumes; [|exact E]. discriminate.
Qed.

Theorem remove_html_comments_step (s : text) :
  remove_html_comments s =
  match delimited (str "<!--") (str "-->") s with
  | Some rest => remove_html_comments rest
  | None =>
    match s with
    | [] => []
    | c :: s' => c :: remove_html_comments s'
    end
  end.
Proof.
  unfold remove_html_comments, sub_const. rewrite sub_unfold.
  - rewrite match_at_html. now destruct (delimited _ _ s).
  - intros t mo rest. rewrite match_at_html.
    destruct (delimited _ _ t) as [r|] eqn:E; [|discriminate].
    intros [= <- <-]. eapply delimited_consumes; [|exact E]. discriminate.
Qed.

(** ** Well-formed spans are matched as such *)

(** Induction for the functions that step over two characters at a time. *)
Lemma list_ind2 (A : Type) (P : list A -> Prop) :
  P [] ->
  (forall c, P [c]) ->
  (forall c d l, P l -> P (d :: l) -> P (c :: d :: l)) ->
  forall l, P l.
Proof.
  intros H0 H1 H2 l. enough (P l /\ forall c, P (c :: l)) by tauto.
  induction l as [|d l [IHl IHc]]; split; auto.
Qed.

Lemma scan_quoted_body (q : char) (following : text) (b : text) :
  quoted_body q b = true -> scan_quoted q (b ++ q :: following) = Some following.
Proof.
  induction b as [|c|c d b IH IHd] using list_ind2; cbn [quoted_body app scan_quoted].
  - now rewrite N.eqb_refl.
  - destruct (c =? q)%N; [discriminate|]. destruct (c =? BACKSLASH)%N; [discriminate|].
    now rewrite N.eqb_refl.
  - destruct (c =? q)%N; [discriminate|]. destruct (c =? BACKSLASH)%N.
    + destruct (d =? LF)%N; [discriminate|]. exact IH.
    + exact IHd.
Qed.

Lemma scan_template_body (following : text) (b : text) :
  spec_body BACKTICK b = true ->
  scan_template (b ++ BACKTICK :: following) = Some following.
Proof.
  induction b as [|c|c d b IH IHd] using list_ind2;
    cbn [spec_body app scan_template].
  - reflexivity.
  - destruct (c =? BACKTICK)%N; [discriminate|].
    now destruct (c =? BACKSLASH)%N.
  - destruct (c =? BACKTICK)%N; [discriminate|].
    destruct (c =? BACKSLASH)%N; [|exact IHd].
    intros Hb. rewrite (IH Hb). now destruct (N.eqb_spec d LF) as [->|Hd].
Qed.

Lemma strip_prefix_shorter (t s following r : text) :
  strip_prefix t (s ++ following) = Some r -> length t <= length s ->
  exists r', strip_prefix t s = Some r'.
Proof.
  revert s. induction t as [|c t IH]; intros s; [now exists s|].
  destruct s as [|x s]; [simpl; lia|]. cbn [app strip_prefix length].
  destruct (x =? c)%N; [|discriminate]. intros H Hl. apply (IH s H). lia.
Qed.

Lemma find_after_app (term s r following : text) :
  find_after term s = Some r ->
  find_after term (s ++ following) = Some (r ++ following).
Proof.
  revert r. induction s as [|c s IH]; intros r; cbn [find_after app].
  - destruct (strip_prefix term []) as [x|] eqn:E; [|discriminate].
    intros [= ->]. apply strip_prefix_app in E.
    destruct term; [|discriminate]. simpl in E. subst r.
    now destruct following.
  - destruct (strip_prefix term (c :: s)) as [x|] eqn:E.
    + intros [= ->]. apply strip_prefix_app in E.
      replace (strip_prefix term (c :: s ++ following)) with (Some (r ++ following));
        [reflexivity|].
      symmetry. apply strip_prefix_app.
      change (c :: s ++ following) with ((c :: s) ++ following).
      rewrite E. now rewrite app_assoc.
    + intros H.
      destruct (strip_prefix term (c :: s ++ following)) as [x|] eqn:E'; [|auto].
      exfalso. pose proof (find_after_length _ _ H) as Hl.
      destruct (@strip_prefix_shorter term (c :: s) following x E') as (r' & Hr').
      * simpl. lia.
      * congruence.
Qed.

Lemma find_after_closes (closer b following : text) :
  closes_at_end closer b = true ->
  find_after closer (b ++ closer ++ following) = Some following.
Proof.
  unfold closes_at_end. intros H.
  destruct (find_after closer (b ++ closer)) as [[|]|] eqn:E; try discriminate.
  rewrite app_assoc. now rewrite (find_after_app _ _ following E).
Qed.

Lemma skip_line_at_eol (b following : text) :
  no_LF b = true -> at_eol following = true ->
  skip_line (b ++ following) = following.
Proof.
  intros Hb Hf. induction b as [|c b IH]; simpl.
  - destruct following as [|d f]; [reflexivity|]. simpl in *. now rewrite Hf.
  - simpl in Hb. apply andb_prop in Hb as [Hc Hb].
    apply negb_true_iff in Hc. rewrite Hc. auto.
Qed.

(** Plain text is copied. *)
Lemma remove_js_plain (t following : text) :
  js_plain t following = true ->
  remove_js_ts_comments (t ++ following) = t ++ remove_js_ts_comments following.
Proof.
  induction t as [|c t IH]; [reflexivity|]. cbn [js_plain app].
  intros H. repeat (apply andb_prop in H as [H ?]).
  rewrite remove_js_ts_comments_step. unfold js_lex.
  repeat match goal with
         | Hn : negb _ = true |- _ => apply negb_true_iff in Hn
         end.
  rewrite H, H3, H2. rewrite <- (IH H0). clear IH H0.
  revert H1. generalize (t ++ following). intros s H1.
  destruct (c =? SLASH)%N; [|reflexivity].
  destruct s as [|d s]; [reflexivity|].
  cbn in H1. apply orb_false_elim in H1 as [H1a H1b]. now rewrite H1a, H1b.
Qed.

(** A quoted literal is kept and the scan goes on after it. *)
Lemma remove_js_quoted (q : char) (b following : text) :
  q = SQUOTE \/ q = DQUOTE ->
  quoted_body q b = true ->
  remove_js_ts_comments ((q :: b ++ [q]) ++ following)
  = (q :: b ++ [q]) ++ remove_js_ts_comments following.
Proof.
  intros Hq Hb. rewrite remove_js_ts_comments_step.
  assert (E : js_lex ((q :: b ++ [q]) ++ following) = Some (1, following)).
  { cbn [app]. rewrite <- app_assoc. cbn [app]. unfold js_lex.
    destruct Hq as [-> | ->]; cbn [N.eqb Pos.eqb SQUOTE DQUOTE];
      now rewrite scan_quoted_body. }
  rewrite E. cbn [Nat.eqb]. now rewrite firstn_consumed.
Qed.

Lemma remove_js_template (b following : text) :
  spec_body BACKTICK b = true ->
  remove_js_ts_comments ((BACKTICK :: b ++ [BACKTICK]) ++ following)
  = (BACKTICK :: b ++ [BACKTICK]) ++ remove_js_ts_comments following.
Proof.
  intros Hb. rewrite remove_js_ts_comments_step.
  assert (E : js_lex ((BACKTICK :: b ++ [BACKTICK]) ++ following)
              = Some (1, following)).
  { cbn [app]. rewrite <- app_assoc. cbn [app]. unfold js_lex.
    cbn [N.eqb Pos.eqb BACKTICK SQUOTE DQUOTE]. now rewrite scan_template_body. }
  rewrite E. cbn [Nat.eqb]. now rewrite firstn_consumed.
Qed.

(** A block comment is dropped. *)
Lemma remove_js_block (b following : text) :
  closes_at_end (str "*/") b = true ->
  remove_js_ts_comments (str "/*" ++ b ++ str "*/" ++ following)
  = remove_js_ts_comments following.
Proof.
  intros Hb. rewrite remove_js_ts_comments_step.
  assert (E : js_lex (str "/*" ++ b ++ str "*/" ++ following)
              = Some (2, following)).
  { change (str "/*" ++ ?x) with (SLASH :: STAR :: x).
    unfold js_lex. cbn [N.eqb Pos.eqb SLASH STAR BACKTICK SQUOTE DQUOTE].
    now rewrite find_after_closes. }
  now rewrite E.
Qed.

(** A line comment is dropped; the end of the line stays. *)
Lemma remove_js_line (b following : text) :
  no_LF b = true -> at_eol following = true ->
  remove_js_ts_comments (str "//" ++ b ++ following)
  = remove_js_ts_comments following.
Proof.
  intros Hb Hf. rewrite remove_js_ts_comments_step.
  assert (E : js_lex (str "//" ++ b ++ following) = Some (3, following)).
  { change (str "//" ++ ?x) with (SLASH :: SLASH :: x).
    unfold js_lex. cbn [N.eqb Pos.eqb SLASH STAR BACKTICK SQUOTE DQUOTE].
    now rewrite skip_line_at_eol. }
  now rewrite E.
Qed.

Lemma source_cons (k : kind) (t : text) (sp : list span) :
  source ((k, t) :: sp) = t ++ source sp.
Proof. reflexivity. Qed.

(** The Script stripper on a lexed text: comments out, the rest verbatim,
    and the scan goes on with what follows. *)
Theorem remove_js_lexed (sp : list span) (after : text) :
  lexed js_span sp after ->
  remove_js_ts_comments (source sp ++ after)
  = stripped sp ++ remove_js_ts_comments after.
Proof.
  induction sp as [|[k t] sp IH]; [reflexivity|].
  intros [Hs Hsp]. specialize (IH Hsp).
  rewrite source_cons, <- app_assoc.
  inversion Hs; subst; unfold stripped; cbn [filter fst snd is_comment negb map concat];
    fold (stripped sp); rewrite <- ?app_assoc.
  - rewrite remove_js_plain by assumption. now rewrite IH.
  - rewrite (@remove_js_quoted SQUOTE) by auto. now rewrite IH.
  - rewrite (@remove_js_quoted DQUOTE) by auto. now rewrite IH.
  - rewrite remove_js_template by auto. now rewrite IH.
  - rewrite remove_js_block by auto. exact IH.
  - rewrite remove_js_line by auto. exact IH.
Qed.

(** The same for the Config stripper. *)
Lemma remove_yml_plain (t following : text) :
  yml_plain t = true ->
  remove_yml_comments (t ++ following) = t ++ remove_yml_comments following.
Proof.
  induction t as [|c t IH]; [reflexivity|]. cbn [yml_plain forallb app].
  intros H. apply andb_prop in H as [H H0].
  repeat (apply andb_prop in H as [H ?]).
  repeat match goal with
         | Hn : negb _ = true |- _ => apply negb_true_iff in Hn
         end.
  rewrite remove_yml_comments_step. unfold yml_lex.
  rewrite H, H1, H2. f_equal. now apply IH.
Qed.

Lemma remove_yml_quoted (q : char) (b following : text) :
  q = SQUOTE \/ q = DQUOTE ->
  quoted_body q b = true ->
  remove_yml_comments ((q :: b ++ [q]) ++ following)
  = (q :: b ++ [q]) ++ remove_yml_comments following.
Proof.
  intros Hq Hb. rewrite remove_yml_comments_step.
  assert (E : yml_lex ((q :: b ++ [q]) ++ following) = Some (1, following)).
  { cbn [app]. rewrite <- app_assoc. cbn [app]. unfold yml_lex.
    destruct Hq as [-> | ->]; cbn [N.eqb Pos.eqb SQUOTE DQUOTE];
      now rewrite scan_quoted_body. }
  rewrite E. cbn [Nat.eqb]. now rewrite firstn_consumed.
Qed.

Lemma remove_yml_line (b following : text) :
  no_LF b = true -> at_eol following = true ->
  remove_yml_comments (HASH :: b ++ following) = remove_yml_comments following.
Proof.
  intros Hb Hf. rewrite remove_yml_comments_step.
  assert (E : yml_lex (HASH :: b ++ following) = Some (2, following)).
  { unfold yml_lex. cbn [N.eqb Pos.eqb HASH SQUOTE DQUOTE].
    now rewrite skip_line_at_eol. }
  now rewrite E.
Qed.

Theorem remove_yml_lexed (sp : list span) (after : text) :
  lexed yml_span sp after ->
  remove_yml_comments (source sp ++ after)
  = stripped sp ++ remove_yml_comments after.
Proof.
  induction sp as [|[k t] sp IH]; [reflexivity|].
  intros [Hs Hsp]. specialize (IH Hsp).
  rewrite source_cons, <- app_assoc.
  inversion Hs; subst; unfold stripped; cbn [filter fst snd is_comment negb map concat];
    fold (stripped sp); rewrite <- ?app_assoc.
  - rewrite remove_yml_plain by assumption. now rewrite IH.
  - rewrite (@remove_yml_quoted SQUOTE) by auto. now rewrite IH.
  - rewrite (@remove_yml_quoted DQUOTE) by auto. now rewrite IH.
  - cbn [app]. rewrite remove_yml_line by auto. exact IH.
Qed.

(** ** Stylesheet and Markup: one comment form and no literals *)

Lemma find_after_suffix (closer m s : text) :
  find_after closer (m ++ s) = None -> find_after closer s = None.
Proof.
  induction m as [|c m IH]; [auto|]. cbn [app find_after].
  destruct (strip_prefix closer (c :: m ++ s)); [discriminate | exact IH].
Qed.

Section Delimited.

Variables opener closer : text.
Variable remove : text -> text.
Hypothesis opener_ne : opener <> [].
Hypothesis remove_step : forall s,
  remove s =
  match delimited opener closer s with
  | Some rest => remove rest
  | None =>
    match s with
    | [] => []
    | c :: s' => c :: remove s'
    end
  end.

Lemma remove_no_opener (t following : text) :
  no_opener opener t following = true ->
  remove (t ++ following) = t ++ remove following.
Proof.
  induction t as [|c t IH]; [reflexivity|]. cbn [no_opener].
  intros H. rewrite remove_step. unfold delimited.
  destruct (strip_prefix opener ((c :: t) ++ following)); [discriminate|].
  cbn [app]. f_equal. auto.
Qed.

Lemma remove_comment (b following : text) :
  closes_at_end closer b = true ->
  remove (opener ++ b ++ closer ++ following) = remove following.
Proof.
  intros Hb. rewrite remove_step. unfold delimited.
  replace (strip_prefix opener (opener ++ b ++ closer ++ following))
    with (Some (b ++ closer ++ following))
    by (symmetry; now apply strip_prefix_app).
  now rewrite find_after_closes.
Qed.

Lemma remove_delimited_lexed (ck : kind) (sp : list span) (after : text) :
  is_comment ck = true ->
  lexed (delimited_span opener closer ck) sp after ->
  remove (source sp ++ after) = stripped sp ++ remove after.
Proof.
  intros Hck. induction sp as [|[k t] sp IH]; [reflexivity|].
  intros [Hs Hsp]. specialize (IH Hsp).
  rewrite source_cons, <- app_assoc.
  inversion Hs; subst; unfold stripped; cbn [filter fst snd is_comment negb map concat];
    fold (stripped sp).
  - rewrite remove_no_opener by assumption. now rewrite IH, <- app_assoc.
  - rewrite Hck. cbn [negb]. rewrite <- !app_assoc.
    rewrite remove_comment by assumption. exact IH.
Qed.

(** Without a closer nothing matches. *)
Lemma remove_no_closer (s : text) :
  find_after closer s = None -> remove s = s.
Proof.
  induction s as [|c s IH]; intros H; rewrite remove_step; unfold delimited.
  - destruct (strip_prefix opener []) as [x|] eqn:E; [|reflexivity].
    apply strip_prefix_app in E. destruct opener; [congruence | discriminate].
  - assert (Hs : find_after closer s = None)
      by apply (find_after_suffix closer [c] s H).
    destruct (strip_prefix opener (c :: s)) as [x|] eqn:E; [|f_equal; auto].
    apply strip_prefix_app in E.
    assert (Hx : find_after closer x = None)
      by (apply (find_after_suffix closer opener); now rewrite <- E).
    rewrite Hx. f_equal. auto.
Qed.

(** An opener that no closer follows stays, and so does its tail. *)
Lemma remove_unterminated (tail : text) :
  find_after closer tail = None ->
  remove (opener ++ tail) = opener ++ tail.
Proof.
  intros Htail.
  enough (H : forall w, length w <= length opener ->
                        remove (w ++ tail) = w ++ tail) by (now apply H).
  induction w as [|c w IH]; intros Hlen; [now apply remove_no_closer|].
  rewrite remove_step. unfold delimited.
  destruct (strip_prefix opener ((c :: w) ++ tail)) as [x|] eqn:E.
  - apply strip_prefix_app in E.
    assert (Hx : exists m, tail = m ++ x).
    { symmetry in E. apply app_eq_app in E as [l [[E1 E2]|[E1 E2]]].
      - now exists l.
      - assert (l = []) as ->.
        { apply (f_equal (@length _)) in E1. rewrite length_app in E1.
          destruct l; [reflexivity | simpl in *; lia]. }
        exists []. now rewrite E2. }
    destruct Hx as [m ->]. rewrite (find_after_suffix _ _ _ Htail).
    cbn [app]. f_equal. apply IH. simpl in Hlen. lia.
  - cbn [app]. f_equal. apply IH. simpl in Hlen. lia.
Qed.

End Delimited.

(** ** Lines: [splitlines], [strip] and the compaction *)

Module Lines.
Import Py.

Lemma splitlines_cons (c : char) (s : text) :
  is_linebreak c = false ->
  splitlines (c :: s) =
  match splitlines s with
  | [] => [[c]]
  | l :: ls => (c :: l) :: ls
  end.
Proof. intros H. cbn [splitlines]. now rewrite H. Qed.

Lemma splitlines_break (c : char) (s : text) :
  is_linebreak c = true ->
  splitlines (c :: s) =
  [] :: splitlines (if (c =? CR)%N && head_is (fun d => (d =? LF)%N) s
                    then tl s else s).
Proof.
  intros H. cbn [splitlines]. rewrite H.
  destruct (c =? CR)%N; [|reflexivity].
  destruct s as [|d s]; [reflexivity|]. cbn. now destruct (d =? LF)%N.
Qed.

Lemma splitlines_nil (s : text) : splitlines s = [] -> s = [].
Proof.
  destruct s as [|c s]; [reflexivity|].
  destruct (is_linebreak c) eqn:E.
  - now rewrite splitlines_break.
  - rewrite splitlines_cons by exact E. now destruct (splitlines s).
Qed.

(** A line has no line boundary in it, and its characters come from the
    text. *)
Lemma splitlines_lines (s : text) :
  Forall (fun l => no_linebreak l = true /\ incl l s) (splitlines s).
Proof.
  induction s as [|c|c d s IH IHd] using list_ind2.
  - constructor.
  - destruct (is_linebreak c) eqn:E.
    + cbn [splitlines]. rewrite E.
      destruct (c =? CR)%N;
        (constructor; [split; [reflexivity | intros x []] | constructor]).
    + rewrite splitlines_cons by exact E. cbn [splitlines].
      constructor; [|constructor].
      split; [cbn; now rewrite E | apply incl_refl].
  - destruct (is_linebreak c) eqn:E.
    + rewrite splitlines_break by exact E. constructor.
      { split; [reflexivity | intros x []]. }
      destruct ((c =? CR)%N && head_is (fun d => (d =? LF)%N) (d :: s)).
      * cbn [tl]. eapply Forall_impl; [|exact IH].
        intros l [H1 H2]. split; [exact H1|].
        intros x Hx. right. right. auto.
      * eapply Forall_impl; [|exact IHd].
        intros l [H1 H2]. split; [exact H1|].
        intros x Hx. right. auto.
    + rewrite splitlines_cons by exact E.
      destruct (splitlines (d :: s)) as [|l ls].
      * constructor; [|constructor].
        split; [cbn; now rewrite E | intros x [<-|[]]; now left].
      * inversion IHd as [|? ? [H1 H2] Hls]; subst. constructor.
        { split; [unfold no_linebreak in *; cbn [forallb]; now rewrite E, H1|].
          intros x [<-|Hx]; [now left | right; auto]. }
        eapply Forall_impl; [|exact Hls].
        intros l' [H1' H2']. split; [exact H1'|].
        intros x Hx. right. auto.
Qed.

(** Splitting a line closed by \n. *)
Lemma splitlines_line (l rest : text) :
  no_linebreak l = true ->
  splitlines (l ++ LF :: rest) = l :: splitlines rest.
Proof.
  induction l as [|c l IH]; intros H.
  - cbn [app]. rewrite splitlines_break by reflexivity. reflexivity.
  - cbn in H. apply andb_prop in H as [Hc Hl]. apply negb_true_iff in Hc.
    cbn [app]. rewrite splitlines_cons by exact Hc. now rewrite IH.
Qed.

Lemma splitlines_unlines (ls : list text) :
  Forall (fun l => no_linebreak l = true) ls ->
  splitlines (unlines ls) = ls.
Proof.
  induction 1 as [|l ls Hl _ IH]; [reflexivity|].
  unfold unlines. cbn [map concat]. rewrite <- app_assoc. cbn [app].
  rewrite splitlines_line by exact Hl. f_equal. exact IH.
Qed.

Lemma join_unlines (ls : list text) :
  ls <> [] -> join [LF] ls ++ [LF] = unlines ls.
Proof.
  induction ls as [|l ls IH]; [congruence|]. intros _.
  destruct ls as [|l' ls]; [cbn; now rewrite app_nil_r|].
  change (join [LF] (l :: l' :: ls)) with (l ++ [LF] ++ join [LF] (l' :: ls)).
  rewrite <- !app_assoc, IH by discriminate.
  change (unlines (l :: l' :: ls)) with ((l ++ [LF]) ++ unlines (l' :: ls)).
  now rewrite <- app_assoc.
Qed.

(** [line.strip()] is truthy when the line is not all white space. *)
Lemma lstrip_nil (s : text) : lstrip s = [] <-> forallb isspace s = true.
Proof.
  induction s as [|c s IH]; [easy|]. cbn.
  destruct (isspace c); [exact IH | easy].
Qed.

Lemma lstrip_nonspace (s : text) :
  head_is (fun c => negb (isspace c)) (lstrip s) = true \/ lstrip s = [].
Proof.
  induction s as [|c s IH]; [now right|]. cbn.
  destruct (isspace c) eqn:E; [exact IH|]. left. cbn. now rewrite E.
Qed.

Lemma truthy_strip (l : text) :
  truthy (strip l) = negb (forallb isspace l).
Proof.
  unfold strip, rstrip.
  destruct (forallb isspace l) eqn:E.
  - apply lstrip_nil in E. now rewrite E.
  - destruct (lstrip_nonspace l) as [H|H];
      [|apply lstrip_nil in H; congruence].
    destruct (lstrip l) as [|x r]; [discriminate|]. cbn in H.
    destruct (lstrip (rev (x :: r))) as [|y r'] eqn:E'.
    + apply lstrip_nil in E'. rewrite forallb_forall in E'.
      specialize (E' x). rewrite <- in_rev in E'.
      rewrite E' in H by now left. discriminate.
    + cbn [rev]. now destruct (rev r').
Qed.

Lemma kept_lines_filter (t : text) :
  kept_lines t =
  filter (fun l => negb (forallb isspace l)) (splitlines t).
Proof.
  unfold kept_lines. apply filter_ext. intros l. apply truthy_strip.
Qed.

Lemma kept_lines_lines (t : text) :
  Forall (fun l => no_linebreak l = true /\ forallb isspace l = false)
         (kept_lines t).
Proof.
  rewrite kept_lines_filter. apply Forall_forall. intros l Hl.
  apply filter_In in Hl as [Hl Hb]. apply negb_true_iff in Hb.
  split; [|exact Hb].
  pose proof (splitlines_lines t) as H. rewrite Forall_forall in H.
  now apply H.
Qed.

(** The compaction writes every kept line closed by one \n. *)
Lemma compact_unlines (t : text) : compact t = unlines (kept_lines t).
Proof.
  unfold compact. destruct (kept_lines t) as [|l ls] eqn:E; [reflexivity|].
  apply join_unlines. discriminate.
Qed.

Lemma splitlines_compact (t : text) :
  splitlines (compact t) = kept_lines t.
Proof.
  rewrite compact_unlines. apply splitlines_unlines.
  eapply Forall_impl; [|apply kept_lines_lines]. now intros l [H _].
Qed.



(** A \n in the text ends a line, whatever comes before it. *)
Lemma splitlines_app_LF (v : text) (u : text) :
  splitlines (u ++ LF :: v) = splitlines (u ++ [LF]) ++ splitlines v.
Proof.
  induction u as [|c|c d u IH IHd] using list_ind2.
  - cbn [app]. now rewrite !splitlines_break by reflexivity.
  - cbn [app]. destruct (is_linebreak c) eqn:E.
    + rewrite !(splitlines_break _ _ E). cbn [head_is tl].
      rewrite N.eqb_refl, andb_true_r.
      destruct (c =? CR)%N; [reflexivity|].
      now rewrite !(splitlines_break LF) by reflexivity.
    + rewrite !(splitlines_cons _ _ E).
      now rewrite !(splitlines_break LF) by reflexivity.
  - cbn [app] in *. destruct (is_linebreak c) eqn:E.
    + rewrite !(splitlines_break _ _ E). cbn [head_is tl].
      destruct ((c =? CR)%N && (d =? LF)%N); cbn [app]; f_equal; assumption.
    + rewrite !(splitlines_cons _ _ E). rewrite IHd.
      destruct (splitlines (d :: u ++ [LF])) as [|l ls] eqn:E'; [|reflexivity].
      now apply splitlines_nil in E'.
Qed.

(** A \n at the end of the text adds no line or an empty one. *)
Lemma splitlines_final_LF (u : text) :
  exists e, splitlines (u ++ [LF]) = splitlines u ++ e /\ (e = [] \/ e = [[]]).
Proof.
  induction u as [|c|c d u IH IHd] using list_ind2.
  - exists [[]]. split; [reflexivity | now right].
  - cbn [app]. destruct (is_linebreak c) eqn:E.
    + rewrite !(splitlines_break _ _ E). cbn [head_is tl].
      rewrite N.eqb_refl, andb_true_r, andb_false_r.
      destruct (c =? CR)%N.
      * exists []. split; [reflexivity | now left].
      * exists [[]]. split; [reflexivity | now right].
    + rewrite !(splitlines_cons _ _ E). exists []. split; [reflexivity | now left].
  - cbn [app] in *. destruct (is_linebreak c) eqn:E.
    + rewrite !(splitlines_break _ _ E). cbn [head_is tl].
      destruct ((c =? CR)%N && (d =? LF)%N).
      * destruct IH as (e & -> & He). now exists e.
      * destruct IHd as (e & -> & He). now exists e.
    + rewrite !(splitlines_cons _ _ E).
      destruct IHd as (e & -> & He). exists e. split; [|exact He].
      destruct (splitlines (d :: u)) as [|l ls] eqn:E'; [|reflexivity].
      now apply splitlines_nil in E'.
Qed.

Lemma kept_lines_app_LF (u v : text) :
  kept_lines (u ++ LF :: v) = kept_lines u ++ kept_lines v.
Proof.
  unfold kept_lines. rewrite splitlines_app_LF, filter_app. f_equal.
  destruct (splitlines_final_LF u) as (e & -> & [-> | ->]);
    rewrite filter_app; cbn; now rewrite app_nil_r.
Qed.

Lemma filter_none (A : Type) (f : A -> bool) (l : list A) :
  (forall x, In x l -> f x = false) -> filter f l = [].
Proof.
  induction l as [|x l IH]; [reflexivity|]. intros H. cbn.
  rewrite (H x) by now left. apply IH. intros y Hy. apply H. now right.
Qed.

(** White space makes no kept line. *)
Lemma kept_lines_blank (w : text) :
  forallb isspace w = true -> kept_lines w = [].
Proof.
  intros Hw. rewrite kept_lines_filter.
  apply filter_none. intros l Hl.
  apply negb_false_iff. apply forallb_forall. intros c Hc.
  pose proof (splitlines_lines w) as H. rewrite Forall_forall in H.
  destruct (H l Hl) as [_ Hin]. rewrite forallb_forall in Hw. auto.
Qed.

(** A blank line leaves no trace in the compacted text. *)
Lemma compact_blank_line (u w v : text) :
  forallb isspace w = true ->
  compact (u ++ LF :: w ++ LF :: v) = compact (u ++ LF :: v).
Proof.
  intros Hw. rewrite !compact_unlines. f_equal.
  now rewrite !kept_lines_app_LF, (kept_lines_blank _ Hw).
Qed.

End Lines.

(** ** The dispatch on the extension *)

Lemma strip_for_dialect (extension : text) :
  strip_for extension = option_map remove_comments (dialect_of extension).
Proof.
  unfold strip_for, dialect_of.
  repeat (destruct (list_eq_dec _ _ _); [reflexivity|]). reflexivity.
Qed.

Lemma final_content_transform (extension content : text) :
  final_content extension content
  = option_map (fun d => transform d content) (dialect_of extension).
Proof.
  unfold final_content. rewrite strip_for_dialect.
  now destruct (dialect_of extension).
Qed.

Lemma dialect_of_target (extension : text) :
  In extension target_extensions <-> dialect_of extension <> None.
Proof.
  unfold dialect_of, target_extensions. split.
  - intros H.
    repeat (destruct (list_eq_dec _ _ _); [discriminate|]).
    cbn [In] in H. intuition congruence.
  - intros H. cbn [In].
    repeat (destruct (list_eq_dec _ _ _) as [->|?]; [tauto|]). congruence.
Qed.

(** C8: a file whose extension is none of the recognized ones is left as
    it is: [process_file] returns before it strips, compacts or writes. *)
Theorem unknown_extension_noop (fs : filesystem) (filepath : text) :
  ~ In (snd (OsPath.splitext filepath)) target_extensions ->
  process_file fs filepath = fs
  /\ forall content,
       final_content (snd (OsPath.splitext filepath)) content = None.
Proof.
  intros H.
  assert (E : dialect_of (snd (OsPath.splitext filepath)) = None).
  { destruct (dialect_of _) eqn:E; [|reflexivity].
    exfalso. apply H. apply dialect_of_target. congruence. }
  assert (F : forall content,
            final_content (snd (OsPath.splitext filepath)) content = None).
  { intros content. now rewrite final_content_transform, E. }
  split; [|exact F].
  unfold process_file. destruct (contents fs filepath); [|reflexivity].
  now rewrite F.
Qed.

Lemma unknown_extension_noop_witness :
  let fs := Files (fun _ => Some (str "a /* b */")) (fun _ => true) in
  process_file fs (str "./docs/notes.txt") = fs
  /\ forall content,
       final_content (snd (OsPath.splitext (str "./docs/notes.txt"))) content
       = None.
Proof.
  intros fs. apply (unknown_extension_noop fs (str "./docs/notes.txt")).
  vm_compute. intuition discriminate.
Defined.

(** ** The compaction *)

(** C5: for a recognized extension the output has no blank line: its lines
    are the lines of the stripped text that are not all white space, in
    their order.  When there is such a line the output is those lines
    joined by \n and closed by one \n; otherwise the output is empty. *)
Theorem compaction_shape (extension content : text) :
  In extension target_extensions ->
  exists remove out,
    strip_for extension = Some remove
    /\ final_content extension content = Some out
    /\ Forall (fun line => Py.strip line <> []) (Py.splitlines out)
    /\ let lines := filter (fun line => negb (forallb Py.isspace line))
                           (Py.splitlines (remove content)) in
       Py.splitlines out = lines
       /\ (lines <> [] -> out = Py.join [LF] lines ++ [LF])
       /\ (lines = [] -> out = []).
Proof.
  intros H. apply dialect_of_target in H.
  destruct (dialect_of extension) as [d|] eqn:E; [clear H | congruence].
  exists (remove_comments d), (transform d content).
  rewrite strip_for_dialect, final_content_transform, E.
  repeat split.
  - unfold transform. rewrite Lines.splitlines_compact.
    unfold kept_lines. apply Forall_forall. intros l Hl.
    apply filter_In in Hl as [_ Hl]. now destruct (Py.strip l).
  - unfold transform. rewrite Lines.splitlines_compact.
    apply Lines.kept_lines_filter.
  - intros Hne. unfold transform, compact.
    rewrite <- Lines.kept_lines_filter in *.
    now destruct (kept_lines (remove_comments d content)).
  - intros Hnil. unfold transform, compact.
    rewrite <- Lines.kept_lines_filter in Hnil. now rewrite Hnil.
Qed.

Lemma compaction_shape_witness :
  exists remove out,
    strip_for (str ".css") = Some remove
    /\ final_content (str ".css") (str "a { } /* c */" ++ [LF; LF] ++ str "b")
       = Some out
    /\ Forall (fun line => Py.strip line <> []) (Py.splitlines out)
    /\ let lines := filter (fun line => negb (forallb Py.isspace line))
                           (Py.splitlines
                              (remove (str "a { } /* c */" ++ [LF; LF] ++ str "b"))) in
       Py.splitlines out = lines
       /\ (lines <> [] -> out = Py.join [LF] lines ++ [LF])
       /\ (lines = [] -> out = []).
Proof.
  apply (@compaction_shape (str ".css")
           (str "a { } /* c */" ++ [LF; LF] ++ str "b")).
  cbn. auto 10.
Defined.

(** C10: in the output every line boundary is a single \n: no other
    boundary character of [splitlines] occurs in it, and every line is
    closed by \n. *)
Theorem output_line_terminators (extension content out : text) :
  final_content extension content = Some out ->
  (forall c, In c out -> Py.is_linebreak c = true -> c = LF)
  /\ out = concat (map (fun line => line ++ [LF]) (Py.splitlines out)).
Proof.
  rewrite final_content_transform.
  destruct (dialect_of extension) as [d|]; [|discriminate].
  intros [= <-]. unfold transform. split.
  - intros c Hc Hb. rewrite Lines.compact_unlines in Hc.
    unfold unlines in Hc. apply in_concat in Hc as (x & Hx & Hc).
    apply in_map_iff in Hx as (l & <- & Hl).
    apply in_app_or in Hc as [Hc|[<-|[]]]; [|reflexivity].
    pose proof (Lines.kept_lines_lines (remove_comments d content)) as H.
    rewrite Forall_forall in H. destruct (H l Hl) as [Hn _].
    unfold no_linebreak in Hn. rewrite forallb_forall in Hn.
    specialize (Hn c Hc). now rewrite Hb in Hn.
  - rewrite Lines.splitlines_compact. apply Lines.compact_unlines.
Qed.

Lemma output_line_terminators_witness :
  (forall c, In c (str "a" ++ [LF] ++ str "b" ++ [LF] ++ str "c" ++ [LF]) ->
             Py.is_linebreak c = true -> c = LF)
  /\ str "a" ++ [LF] ++ str "b" ++ [LF] ++ str "c" ++ [LF]
     = concat (map (fun line => line ++ [LF])
                 (Py.splitlines (str "a" ++ [LF] ++ str "b" ++ [LF] ++ str "c" ++ [LF]))).
Proof.
  apply (@output_line_terminators (str ".css")
           (str "a" ++ [CR; LF] ++ str "b" ++ [CR] ++ str "c")).
  vm_compute. reflexivity.
Defined.

(** ** The first scenario of the specification *)

(** C7, as the program behaves: the comment goes from [//] to the end of
    the line, so the space in front of it stays and the first output line
    ends in a semicolon and a space. *)
Theorem scenario_output :
  final_content (str ".ts") scenario_input
  = Some (scenario_line1 ++ str " " ++ [LF] ++ scenario_line2 ++ [LF])
  /\ option_map Py.splitlines (final_content (str ".ts") scenario_input)
     = Some [scenario_line1 ++ str " "; scenario_line2].
Proof. split; vm_compute; reflexivity. Qed.

(** C7 as stated fails: the output lines are not the two lines of the
    specification. *)
Lemma scenario_counterexample :
  option_map Py.splitlines (final_content (str ".ts") scenario_input)
  <> Some [scenario_line1; scenario_line2].
Proof. vm_compute. discriminate. Qed.

(** ** Comments are removed, the rest is kept *)

(** The stripper of every dialect on a lexed text. *)
Lemma remove_comments_lexed (d : dialect) (sp : list span) (after : text) :
  lexed (span_ok d) sp after ->
  remove_comments d (source sp ++ after)
  = stripped sp ++ remove_comments d after.
Proof.
  destruct d; cbn [span_ok remove_comments].
  - apply remove_js_lexed.
  - apply (@remove_delimited_lexed (str "<!--") (str "-->"));
      [exact remove_html_comments_step | reflexivity].
  - apply (@remove_delimited_lexed (str "/*") (str "*/"));
      [exact remove_css_comments_step | reflexivity].
  - apply remove_yml_lexed.
Qed.

(** Comment removal, where it holds: in every dialect, on a text cut into
    spans that the patterns match (plain text, literals without an
    escaped newline in a quoted body, terminated comments), the stripper
    drops each comment span whole and copies every other span verbatim;
    what follows the spans is stripped on its own.  The output of the
    transform is the compaction of that text. *)
Lemma comment_removal (d : dialect) (sp : list span) (after : text) :
  lexed (span_ok d) sp after ->
  remove_comments d (source sp ++ after)
  = stripped sp ++ remove_comments d after
  /\ transform d (source sp ++ after)
     = compact (stripped sp ++ remove_comments d after).
Proof.
  intros H. unfold transform. now rewrite remove_comments_lexed.
Qed.

Lemma comment_removal_example :
  let sp := [(Plain, str "x = ");
             (Literal, DQUOTE :: str "a // b" ++ [DQUOTE]);
             (Plain, str "; ");
             (BlockComment, str "/*" ++ str " c " ++ str "*/");
             (Plain, str " y / 2 ");
             (LineComment, str "//" ++ str " d")] in
  let after := LF :: str "z" in
  remove_comments Script (source sp ++ after)
  = stripped sp ++ remove_comments Script after
  /\ transform Script (source sp ++ after)
     = compact (stripped sp ++ remove_comments Script after).
Proof.
  intros sp after. apply (@comment_removal Script sp after).
  subst sp after. cbn [lexed span_ok]. repeat split.
  - apply js_span_plain. reflexivity.
  - apply js_span_dquoted. reflexivity.
  - apply js_span_plain. reflexivity.
  - apply js_span_block. reflexivity.
  - apply js_span_plain. reflexivity.
  - apply js_span_line; reflexivity.
Defined.

(** C2, where the program departs from it: a well-formed line comment
    that lies outside every literal stays in the output.  The literal in
    front of it is well formed (its backslash escapes the newline), but
    the pattern does not match a quoted literal with an escaped newline;
    the closing quote of the literal is then read as an opening one and
    pairs with the apostrophe inside the comment, so the [//] is taken
    for the body of a literal.  Nothing is removed. *)
Theorem comment_after_escaped_newline_kept :
  spec_body SQUOTE continued_body = true
  /\ no_LF (str " it's a comment") = true
  /\ remove_js_ts_comments continued_then_comment = continued_then_comment
  /\ final_content (str ".ts") continued_then_comment
     = Some (str "x = 'a" ++ [BACKSLASH; LF]
             ++ str "b'; // it's a comment" ++ [LF]).
Proof.
  split; [vm_compute; reflexivity|].
  split; [vm_compute; reflexivity|].
  split; vm_compute; reflexivity.
Qed.

(** ** Literals *)

Lemma quoted_body_spec (q : char) (b : text) :
  quoted_body q b = true -> spec_body q b = true.
Proof.
  induction b as [|c|c d b IH IHd] using list_ind2; cbn [quoted_body spec_body].
  - reflexivity.
  - now destruct (c =? q)%N.
  - destruct (c =? q)%N; [discriminate|].
    destruct (c =? BACKSLASH)%N; [|exact IHd].
    intros H. apply andb_prop in H as [_ H]. auto.
Qed.

(** A literal that the pattern matches is kept whole, with every [//],
    [/*] or [#] in it, and the scan goes on after its closing quote. *)
Lemma literal_preserved (d : dialect) (q : char) (body : text)
    (sp : list span) (post : text) :
  In q (quotes d) ->
  matched_body q body = true ->
  lexed (span_ok d) sp ((q :: body ++ [q]) ++ post) ->
  remove_comments d (source sp ++ (q :: body ++ [q]) ++ post)
  = stripped sp ++ (q :: body ++ [q]) ++ remove_comments d post.
Proof.
  intros Hq Hb Hsp. rewrite remove_comments_lexed by exact Hsp. f_equal.
  unfold matched_body in Hb.
  destruct d; cbn [quotes In] in Hq; cbn [remove_comments].
  - destruct Hq as [<-|[<-|[<-|[]]]].
    + now apply remove_js_quoted; [left|].
    + now apply remove_js_quoted; [right|].
    + now apply remove_js_template.
  - destruct Hq.
  - destruct Hq.
  - destruct Hq as [<-|[<-|[]]].
    + now apply remove_yml_quoted; [left|].
    + now apply remove_yml_quoted; [right|].
Qed.

(** C1, where the program departs from it: a single-quoted literal with a
    backslash-newline in it is well formed (the backslash escapes the
    newline), but the pattern does not match it, and the [//] inside it is
    taken for a comment: the rest of the literal is cut off. *)
Theorem escaped_newline_literal_cut :
  spec_body SQUOTE (str "a" ++ [BACKSLASH; LF] ++ str "// b") = true
  /\ remove_js_ts_comments (str "x = " ++ continued_literal ++ str ";")
     = str "x = 'a" ++ [BACKSLASH; LF]
  /\ final_content (str ".ts") (str "x = " ++ continued_literal ++ str ";")
     = Some (str "x = 'a" ++ [BACKSLASH; LF]).
Proof.
  split; [vm_compute; reflexivity|].
  split; vm_compute; reflexivity.
Qed.

(** ** Blank lines inside a template literal *)

Lemma splitlines_single (a : text) :
  a <> [] -> no_linebreak a = true -> Py.splitlines a = [a].
Proof.
  unfold no_linebreak.
  induction a as [|c a IH]; [congruence|]. intros _ H.
  cbn [forallb] in H. apply andb_prop in H as [Hc Ha].
  apply negb_true_iff in Hc.
  rewrite Lines.splitlines_cons by exact Hc.
  destruct a as [|d a]; [reflexivity|].
  rewrite IH; [reflexivity | discriminate | exact Ha].
Qed.

(** A line that is not blank is kept. *)
Lemma kept_lines_single (a : text) :
  no_linebreak a = true -> forallb Py.isspace a = false ->
  kept_lines a = [a].
Proof.
  intros Hn Hb. rewrite Lines.kept_lines_filter, splitlines_single.
  - cbn [filter]. now rewrite Hb.
  - intros ->. discriminate Hb.
  - exact Hn.
Qed.

Lemma kept_lines_last (head a : text) :
  head = [] \/ (exists h, head = h ++ [LF]) ->
  no_linebreak a = true -> forallb Py.isspace a = false ->
  kept_lines (head ++ a) = kept_lines head ++ [a].
Proof.
  intros [-> | [h ->]] Hn Hb.
  - cbn [app]. now rewrite kept_lines_single.
  - rewrite <- app_assoc. cbn [app].
    rewrite (Lines.kept_lines_app_LF h a), (Lines.kept_lines_app_LF h []).
    rewrite (@kept_lines_single a Hn Hb).
    change (kept_lines []) with (@nil text). now rewrite app_nil_r.
Qed.

Lemma kept_lines_first (b tail : text) :
  tail = [] \/ (exists t, tail = LF :: t) ->
  no_linebreak b = true -> forallb Py.isspace b = false ->
  kept_lines (b ++ tail) = b :: kept_lines tail.
Proof.
  intros [-> | [t ->]] Hn Hb.
  - rewrite app_nil_r. now rewrite kept_lines_single.
  - rewrite Lines.kept_lines_app_LF, (@kept_lines_single b Hn Hb).
    change (LF :: t) with ([] ++ LF :: t).
    now rewrite (Lines.kept_lines_app_LF [] t).
Qed.

(** C9: a template literal that spans several lines is kept by the
    stripper, and a blank line in its body is then deleted by the
    compaction.  With [a] the line in front of the blank line [w] (the
    last line of the text up to it) and [b] the line after it (the first
    line of what follows), the output has [b] right after [a]: the blank
    line is gone from inside the literal, and the body of the literal is
    not what it was. *)
Theorem blank_line_inside_template (sp : list span)
    (body1 w body2 post head a b tail : text) :
  let literal := BACKTICK :: (body1 ++ LF :: w ++ LF :: body2) ++ [BACKTICK] in
  spec_body BACKTICK (body1 ++ LF :: w ++ LF :: body2) = true ->
  forallb Py.isspace w = true ->
  lexed js_span sp (literal ++ post) ->
  stripped sp ++ BACKTICK :: body1 = head ++ a ->
  head = [] \/ (exists h, head = h ++ [LF]) ->
  no_linebreak a = true -> forallb Py.isspace a = false ->
  body2 ++ BACKTICK :: remove_js_ts_comments post = b ++ tail ->
  tail = [] \/ (exists t, tail = LF :: t) ->
  no_linebreak b = true -> forallb Py.isspace b = false ->
  remove_js_ts_comments (source sp ++ literal ++ post)
  = stripped sp ++ literal ++ remove_js_ts_comments post
  /\ final_content (str ".ts") (source sp ++ literal ++ post)
     = Some (compact head ++ a ++ [LF] ++ b ++ [LF] ++ compact tail).
Proof.
  intros literal Hb Hw Hsp Hhead Hh Ha Hna Htail Ht Hbl Hnb.
  assert (E : remove_js_ts_comments (source sp ++ literal ++ post)
              = stripped sp ++ literal ++ remove_js_ts_comments post).
  { apply (@literal_preserved Script BACKTICK _ sp post);
      [cbn; auto | exact Hb | exact Hsp]. }
  split; [exact E|].
  change (final_content (str ".ts") ?x)
    with (Some (compact (remove_js_ts_comments x))).
  rewrite E. f_equal. unfold literal.
  replace (stripped sp ++ (BACKTICK :: (body1 ++ LF :: w ++ LF :: body2)
                           ++ [BACKTICK]) ++ remove_js_ts_comments post)
    with ((stripped sp ++ BACKTICK :: body1) ++ LF :: w
          ++ LF :: (body2 ++ BACKTICK :: remove_js_ts_comments post)).
  2:{ cbn [app]. repeat (rewrite <- ?app_assoc; cbn [app]). reflexivity. }
  rewrite Hhead, Htail, !Lines.compact_unlines.
  rewrite (Lines.kept_lines_app_LF (head ++ a)), (Lines.kept_lines_app_LF w).
  rewrite (Lines.kept_lines_blank _ Hw).
  rewrite (@kept_lines_last head a Hh Ha Hna).
  rewrite (@kept_lines_first b tail Ht Hbl Hnb).
  unfold unlines. rewrite !map_app, !concat_app. cbn [app map concat].
  rewrite <- !app_assoc. reflexivity.
Qed.

Lemma blank_line_inside_template_witness :
  let sp := [(Plain, str "const t = ")] in
  let literal := BACKTICK :: (str "a" ++ LF :: [] ++ LF :: str "b")
                             ++ [BACKTICK] in
  remove_js_ts_comments (source sp ++ literal ++ str ";")
  = stripped sp ++ literal ++ remove_js_ts_comments (str ";")
  /\ final_content (str ".ts")
       (str "const t = `a" ++ [LF; LF] ++ str "b`;")
     = Some (str "const t = `a" ++ [LF] ++ str "b`;" ++ [LF]).
Proof.
  intros sp literal.
  apply (@blank_line_inside_template sp (str "a") [] (str "b") (str ";")
           [] (str "const t = `a") (str "b`;") []).
  - reflexivity.
  - reflexivity.
  - subst sp. cbn [lexed]. split; [|exact I]. apply js_span_plain. reflexivity.
  - reflexivity.
  - now left.
  - reflexivity.
  - reflexivity.
  - vm_compute. reflexivity.
  - now left.
  - reflexivity.
  - reflexivity.
Defined.

(** ** Openers that nothing closes *)

Lemma remove_js_unterminated (tail : text) :
  find_after (str "*/") tail = None ->
  remove_js_ts_comments (str "/*" ++ tail)
  = str "/*" ++ remove_js_ts_comments tail.
Proof.
  intros H. change (str "/*" ++ ?x) with (SLASH :: STAR :: x).
  rewrite remove_js_ts_comments_step. unfold js_lex.
  cbn [N.eqb Pos.eqb SLASH STAR SQUOTE DQUOTE BACKTICK]. rewrite H.
  cbn [option_map]. f_equal.
  now rewrite remove_js_ts_comments_step.
Qed.

(** C3, as the program behaves: a comment opener that no closer follows is
    not a comment.  It stays in the output, and the text after it is
    stripped like any other text: in the Stylesheet and Markup dialects
    that text has no comment left and stays whole; in the Script dialect
    its literals and [//] comments are still recognized. *)
Theorem unterminated_comment_kept (d : dialect) (opener closer : text)
    (sp : list span) (tail : text) :
  block_delimiters d = Some (opener, closer) ->
  find_after closer tail = None ->
  lexed (span_ok d) sp (opener ++ tail) ->
  remove_comments d (source sp ++ opener ++ tail)
  = stripped sp ++ opener ++ remove_comments d tail
  /\ (d <> Script -> remove_comments d tail = tail).
Proof.
  intros Hd Htail Hsp. rewrite remove_comments_lexed by exact Hsp.
  destruct d; cbn [block_delimiters] in Hd; injection Hd as <- <- || discriminate;
    cbn [remove_comments].
  - split; [|congruence]. f_equal. now apply remove_js_unterminated.
  - assert (E : remove_html_comments tail = tail).
    { apply (@remove_no_closer (str "<!--") (str "-->"));
        [discriminate | exact remove_html_comments_step | exact Htail]. }
    split; [|now intros _]. f_equal. rewrite E.
    apply (@remove_unterminated (str "<!--") (str "-->"));
      [discriminate | exact remove_html_comments_step | exact Htail].
  - assert (E : remove_css_comments tail = tail).
    { apply (@remove_no_closer (str "/*") (str "*/"));
        [discriminate | exact remove_css_comments_step | exact Htail]. }
    split; [|now intros _]. f_equal. rewrite E.
    apply (@remove_unterminated (str "/*") (str "*/"));
      [discriminate | exact remove_css_comments_step | exact Htail].
Qed.

Lemma unterminated_comment_kept_witness :
  remove_comments Markup
    (source [(Plain, str "<p>a</p> ")] ++ str "<!--" ++ str " b -- > c")
  = stripped [(Plain, str "<p>a</p> ")] ++ str "<!--"
    ++ remove_comments Markup (str " b -- > c")
  /\ (Markup <> Script ->
      remove_comments Markup (str " b -- > c") = str " b -- > c").
Proof.
  apply (@unterminated_comment_kept Markup (str "<!--") (str "-->")
           [(Plain, str "<p>a</p> ")] (str " b -- > c")).
  - reflexivity.
  - reflexivity.
  - cbn [lexed span_ok]. split; [|exact I].
    apply delimited_span_plain. reflexivity.
Defined.

(** C3 as stated fails: the tail after an unterminated opener is not
    removed. *)
Lemma unterminated_comment_counterexample :
  find_after (str "*/") (str " abc") = None
  /\ final_content (str ".css") (str "a /* abc")
     = Some (str "a /* abc" ++ [LF])
  /\ final_content (str ".css") (str "a /* abc") <> Some (compact (str "a ")).
Proof.
  split; [vm_compute; reflexivity|].
  split; [vm_compute; reflexivity | vm_compute; discriminate].
Qed.

Lemma spec_unterminated_scan (q : char) (tail : text) :
  spec_unterminated q tail = true -> scan_quoted q tail = None.
Proof.
  induction tail as [|c|c d l IH IHd] using list_ind2;
    cbn [spec_unterminated scan_quoted].
  - reflexivity.
  - destruct (c =? q)%N; [discriminate|]. now destruct (c =? BACKSLASH)%N.
  - destruct (c =? q)%N; [discriminate|].
    destruct (c =? BACKSLASH)%N; [|exact IHd].
    destruct (d =? LF)%N; [reflexivity | exact IH].
Qed.

Lemma scan_template_cons (c : char) (s : text) :
  scan_template (c :: s) =
  if (c =? BACKTICK)%N then Some s
  else if (c =? BACKSLASH)%N then
    match
      match s with
      | d :: s' => if (d =? LF)%N then None else scan_template s'
      | [] => None
      end
    with
    | Some rest => Some rest
    | None => scan_template s
    end
  else scan_template s.
Proof. reflexivity. Qed.

Lemma no_backtick_scan (tail : text) :
  forallb (fun c => negb (c =? BACKTICK)%N) tail = true ->
  scan_template tail = None.
Proof.
  induction tail as [|c|c d l IH IHd] using list_ind2.
  - reflexivity.
  - cbn. destruct (c =? BACKTICK)%N; [discriminate|].
    now destruct (c =? BACKSLASH)%N.
  - intros H. cbn [forallb] in H. apply andb_prop in H as [Hc H].
    apply negb_true_iff in Hc. specialize (IHd H).
    apply andb_prop in H as [Hd H]. specialize (IH H).
    rewrite scan_template_cons, Hc, IHd, IH.
    destruct (c =? BACKSLASH)%N; [|reflexivity].
    now destruct (d =? LF)%N.
Qed.

(** C4, as the program behaves: a quote that nothing closes is not the
    start of a literal.  It is copied as one plain character and the text
    after it is stripped as usual, its comments included. *)
Theorem unterminated_quote_plain (d : dialect) (q : char)
    (sp : list span) (tail : text) :
  In q (quotes d) ->
  never_closes q tail = true ->
  lexed (span_ok d) sp (q :: tail) ->
  remove_comments d (source sp ++ q :: tail)
  = stripped sp ++ q :: remove_comments d tail.
Proof.
  intros Hq Hn Hsp. rewrite remove_comments_lexed by exact Hsp. f_equal.
  unfold never_closes in Hn.
  destruct d; cbn [quotes In] in Hq; cbn [remove_comments].
  - rewrite remove_js_ts_comments_step. unfold js_lex.
    destruct Hq as [<-|[<-|[<-|[]]]]; cbn [N.eqb Pos.eqb SQUOTE DQUOTE BACKTICK] in *.
    + now rewrite spec_unterminated_scan.
    + now rewrite spec_unterminated_scan.
    + now rewrite no_backtick_scan.
  - destruct Hq.
  - destruct Hq.
  - rewrite remove_yml_comments_step. unfold yml_lex.
    destruct Hq as [<-|[<-|[]]]; cbn [N.eqb Pos.eqb SQUOTE DQUOTE BACKTICK] in *.
    + now rewrite spec_unterminated_scan.
    + now rewrite spec_unterminated_scan.
Qed.

Lemma unterminated_quote_plain_witness :
  remove_comments Script
    (source [(Plain, str "x = ")] ++ SQUOTE :: str "abc // comment")
  = stripped [(Plain, str "x = ")]
    ++ SQUOTE :: remove_comments Script (str "abc // comment").
Proof.
  apply (@unterminated_quote_plain Script SQUOTE
           [(Plain, str "x = ")] (str "abc // comment")).
  - cbn. auto.
  - reflexivity.
  - cbn [lexed span_ok]. split; [|exact I]. apply js_span_plain. reflexivity.
Defined.

(** C4 as stated fails: the [//] after an unterminated quote is stripped
    as a comment. *)
Lemma unterminated_quote_counterexample :
  spec_unterminated SQUOTE (str "abc // comment") = true
  /\ final_content (str ".ts") (str "x = 'abc // comment")
     = Some (str "x = 'abc " ++ [LF])
  /\ final_content (str ".ts") (str "x = 'abc // comment")
     <> Some (str "x = 'abc // comment" ++ [LF]).
Proof.
  split; [vm_compute; reflexivity|].
  split; [vm_compute; reflexivity | vm_compute; discriminate].
Qed.

(** ** Clean texts are fixed points of the strippers *)














(** ** Occurrences of an opener *)

Lemma find_after_unfold (term s : text) :
  find_after term s =
  match strip_prefix term s with
  | Some rest => Some rest
  | None =>
    match s with
    | [] => None
    | _ :: s' => find_after term s'
    end
  end.
Proof. now destruct s. Qed.

Lemma find_after_head (term rest : text) :
  find_after term (term ++ rest) = Some rest.
Proof.
  rewrite find_after_unfold.
  now rewrite (proj2 (strip_prefix_app term (term ++ rest) rest) eq_refl).
Qed.










Section NoOpener.

Variables opener closer : text.
Variable remove : text -> text.
Hypothesis remove_step : forall s,
  remove s =
  match delimited opener closer s with
  | Some rest => remove rest
  | None =>
    match s with
    | [] => []
    | c :: s' => c :: remove s'
    end
  end.


End NoOpener.


(** ** The compaction keeps a clean text clean *)
















(** ** The stripped text of a lexed input is clean *)









(** ** Idempotence *)




(* ================================================================== *)
(** * Further properties of the program *)

(** ** [process_file] and the file store *)

Lemma process_file_writable (fs : filesystem) (filepath : text) :
  writable (process_file fs filepath) = writable fs.
Proof.
  unfold process_file. destruct (contents fs filepath); [|reflexivity].
  destruct (final_content _ _); [|reflexivity].
  now destruct (writable fs filepath).
Qed.

Lemma process_file_other (fs : filesystem) (filepath p : text) :
  p <> filepath ->
  contents (process_file fs filepath) p = contents fs p.
Proof.
  intros Hp. unfold process_file. destruct (contents fs filepath); [|reflexivity].
  destruct (final_content _ _); [|reflexivity].
  destruct (writable fs filepath); [|reflexivity].
  cbn. now destruct (list_eq_dec N.eq_dec p filepath).
Qed.

Lemma process_file_at (fs : filesystem) (filepath : text) :
  contents (process_file fs filepath) filepath =
  match contents fs filepath with
  | None => None
  | Some content =>
    match final_content (snd (OsPath.splitext filepath)) content with
    | Some data => if writable fs filepath then Some data else Some content
    | None => Some content
    end
  end.
Proof.
  unfold process_file. destruct (contents fs filepath) as [c|] eqn:E; [|exact E].
  destruct (final_content _ _); [|exact E].
  destruct (writable fs filepath); [|exact E].
  cbn. now destruct (list_eq_dec N.eq_dec filepath filepath).
Qed.

(** X12: the order in which two different files are processed does not
    matter: both orders leave the same content at every path and the
    same permissions. *)
Theorem process_file_commutes (fs : filesystem) (a b : text) :
  a <> b ->
  writable (process_file (process_file fs a) b)
  = writable (process_file (process_file fs b) a)
  /\ forall p,
       contents (process_file (process_file fs a) b) p
       = contents (process_file (process_file fs b) a) p.
Proof.
  intros Hab. split; [now rewrite !process_file_writable|].
  intros p.
  destruct (list_eq_dec N.eq_dec p a) as [->|Hpa].
  - rewrite (@process_file_other (process_file fs a) b a Hab).
    rewrite !process_file_at, process_file_writable.
    now rewrite (@process_file_other fs b a Hab).
  - rewrite (@process_file_other (process_file fs b) a p Hpa).
    destruct (list_eq_dec N.eq_dec p b) as [->|Hpb].
    + rewrite !process_file_at, process_file_writable.
      now rewrite (@process_file_other fs a b (not_eq_sym Hab)).
    + now rewrite !process_file_other by assumption.
Qed.

Lemma process_file_commutes_witness :
  let fs := Files (fun _ => Some (str "a /* b */ c")) (fun _ => true) in
  writable (process_file (process_file fs (str "./x.css")) (str "./y.yml"))
  = writable (process_file (process_file fs (str "./y.yml")) (str "./x.css"))
  /\ forall p,
       contents (process_file (process_file fs (str "./x.css")) (str "./y.yml")) p
       = contents (process_file (process_file fs (str "./y.yml")) (str "./x.css")) p.
Proof.
  intros fs. apply (@process_file_commutes fs (str "./x.css") (str "./y.yml")).
  vm_compute. discriminate.
Defined.

(** ** [main]: the walk *)

Lemma directory_induction (P : directory -> Prop) :
  (forall dirs files,
     Forall (fun x => P (snd x)) dirs -> P (Directory dirs files)) ->
  forall d, P d.
Proof.
  intros H. fix IH 1. intros [dirs files]. apply H.
  induction dirs as [|[name sub] ds IHds]; constructor; [apply IH | exact IHds].
Qed.

Lemma walk_dirs_map (D D' : text -> directory -> list (text * list text))
    (f : directory -> directory) (ds : list (text * directory)) :
  Forall (fun x => D (fst x) (f (snd x)) = D' (fst x) (snd x)) ds ->
  forall removed,
    walk_dirs D (map_dirs f ds removed) removed = walk_dirs D' ds removed.
Proof.
  induction 1 as [|[name sub] ds Hx _ IH]; intros removed; [reflexivity|].
  cbn [map_dirs walk_dirs].
  destruct (negb removed && text_eqb name GIT) eqn:E; cbn [walk_dirs].
  - rewrite E. apply IH.
  - rewrite E. cbn [fst snd] in Hx. now rewrite Hx, IH.
Qed.

Lemma walk_empty_git (d : directory) :
  forall top, walk top (empty_git d) = walk top d.
Proof.
  induction d as [dirs files IH] using directory_induction. intros top.
  cbn [empty_git walk]. f_equal. apply walk_dirs_map.
  eapply Forall_impl; [|exact IH]. intros [name sub] H. cbn. apply H.
Qed.

(** X13: [main] never looks inside a directory named [.git], at any
    depth: two trees that differ only in what their [.git] directories
    contain give the same run. *)
Theorem main_ignores_git (t1 t2 : directory) (fs : filesystem) :
  empty_git t1 = empty_git t2 -> main t1 fs = main t2 fs.
Proof.
  intros H. unfold main.
  now rewrite <- (walk_empty_git t1), <- (walk_empty_git t2), H.
Qed.

Lemma main_ignores_git_witness :
  let fs := Files (fun _ => Some (str "x /* y */")) (fun _ => true) in
  let src := (str "src", Directory [] [str "a.ts"]) in
  main (Directory [(GIT, Directory [(str "hooks", Directory [] [str "h.yml"])]
                                   [str "config.yml"]); src]
                  [str "b.css"]) fs
  = main (Directory [(GIT, Directory [] []); src] [str "b.css"]) fs.
Proof.
  intros fs src. apply main_ignores_git. reflexivity.
Defined.

Lemma process_files_other (root : text) (files : list text) (p : text) :
  forall fs,
  (forall file, In file files -> selected file = true ->
                OsPath.join root file <> p) ->
  contents (process_files root files fs) p = contents fs p
  /\ writable (process_files root files fs) = writable fs.
Proof.
  unfold process_files.
  induction files as [|file files IH]; intros fs H; [now split|].
  cbn [fold_left].
  destruct (IH (if selected file
                then process_file fs (OsPath.join root file) else fs))
    as [-> ->].
  { intros f Hf. apply H. now right. }
  destruct (selected file) eqn:S; [|now split].
  split; [|apply process_file_writable].
  apply process_file_other. apply not_eq_sym, H; [now left | exact S].
Qed.

(** X14: [main] changes no file but the ones it selects: a path that is
    not the join of a visited directory and one of its files whose name
    ends with a target extension keeps its content, and no permission
    changes. *)
Theorem main_touches_selected_only (tree : directory) (fs : filesystem)
    (p : text) :
  (forall root files file,
     In (root, files) (walk (str ".") tree) -> In file files ->
     selected file = true -> OsPath.join root file <> p) ->
  contents (main tree fs) p = contents fs p
  /\ writable (main tree fs) = writable fs.
Proof.
  unfold main. generalize (walk (str ".") tree). intros l. revert fs.
  induction l as [|[root files] l IH]; intros fs H; [now split|].
  cbn [fold_left].
  destruct (IH (process_files root files fs)) as [-> ->].
  { intros r fl f Hin. apply H. now right. }
  apply process_files_other. intros file Hf. apply (H root files file); auto.
  now left.
Qed.

Lemma main_touches_selected_only_witness :
  let fs := Files (fun _ => Some (str "x /* y */")) (fun _ => true) in
  let tree := Directory [(str "src", Directory [] [str "a.ts"; str "a.txt"])]
                        [str "b.css"] in
  contents (main tree fs) (str "./src/a.txt") = contents fs (str "./src/a.txt")
  /\ writable (main tree fs) = writable fs.
Proof.
  intros fs tree. apply (@main_touches_selected_only tree fs (str "./src/a.txt")).
  intros root files file Hin Hf Hs.
  cbn in Hin.
  destruct Hin as [E|[E|[]]]; injection E as <- <-;
    cbn in Hf; repeat (destruct Hf as [<-|Hf]; [vm_compute; discriminate|]);
    try destruct Hf; vm_compute in Hs; discriminate.
Defined.

(** ** [main] and [process_file] on the extension *)

Lemma rfind_from_app (c : char) (a b : text) :
  forall i best,
  Py.rfind_from c (a ++ b) i best
  = Py.rfind_from c b (i + Z.of_nat (length a))%Z (Py.rfind_from c a i best).
Proof.
  induction a as [|x a IH]; intros i best; cbn [app Py.rfind_from length].
  - now rewrite Z.add_0_r.
  - rewrite IH. f_equal. lia.
Qed.

Lemma rfind_from_absent (c : char) (b : text) :
  forallb (fun x => negb (x =? c)%N) b = true ->
  forall i best, Py.rfind_from c b i best = best.
Proof.
  induction b as [|x b IH]; intros H i best; [reflexivity|].
  cbn in H. apply andb_prop in H as [Hx Hb]. apply negb_true_iff in Hx.
  cbn [Py.rfind_from]. rewrite Hx. now apply IH.
Qed.

Lemma rfind_from_bounds (c : char) (s : text) :
  forall i best, (-1 <= best < i)%Z ->
  (-1 <= Py.rfind_from c s i best < i + Z.of_nat (length s))%Z.
Proof.
  induction s as [|x s IH]; intros i best H; cbn [Py.rfind_from length].
  - lia.
  - specialize (IH (i + 1)%Z (if (x =? c)%N then i else best)).
    destruct (x =? c)%N; lia.
Qed.

(** The index of the last [/] of a text that is empty or ends with [/]. *)
Lemma rfind_slash_prefix (prefix : text) :
  prefix = [] \/ (exists x, prefix = x ++ [SLASH]) ->
  Py.rfind SLASH prefix = (Z.of_nat (length prefix) - 1)%Z.
Proof.
  unfold Py.rfind. intros [-> | [x ->]]; [reflexivity|].
  rewrite rfind_from_app. cbn [Py.rfind_from]. rewrite N.eqb_refl.
  rewrite length_app. cbn [length]. lia.
Qed.

(** [os.path.splitext] on a path whose last component is [stem], a dot
    and [e]: the extension is [.e] when the stem has a character other
    than a dot, and empty otherwise. *)
Lemma splitext_name (prefix stem e : text) :
  prefix = [] \/ (exists x, prefix = x ++ [SLASH]) ->
  forallb (fun x => negb (x =? SLASH)%N) stem = true ->
  forallb (fun x => negb (x =? SLASH)%N && negb (x =? DOT)%N) e = true ->
  OsPath.splitext (prefix ++ stem ++ DOT :: e) =
  if existsb (fun x => negb (x =? DOT)%N) stem
  then (prefix ++ stem, DOT :: e)
  else (prefix ++ stem ++ DOT :: e, []).
Proof.
  intros Hp Hs He.
  assert (He1 : forallb (fun x => negb (x =? SLASH)%N) e = true).
  { rewrite forallb_forall in *. intros x Hx.
    now destruct (andb_prop _ _ (He x Hx)). }
  assert (He2 : forallb (fun x => negb (x =? DOT)%N) e = true).
  { rewrite forallb_forall in *. intros x Hx.
    now destruct (andb_prop _ _ (He x Hx)). }
  assert (Hsep : Py.rfind SLASH (prefix ++ stem ++ DOT :: e)
                 = (Z.of_nat (length prefix) - 1)%Z).
  { rewrite <- rfind_slash_prefix by exact Hp. unfold Py.rfind.
    rewrite rfind_from_app. apply rfind_from_absent.
    rewrite forallb_app. apply andb_true_intro.
    split; [exact Hs | exact He1]. }
  assert (Hdot : Py.rfind DOT (prefix ++ stem ++ DOT :: e)
                 = Z.of_nat (length (prefix ++ stem))).
  { unfold Py.rfind. rewrite app_assoc, rfind_from_app.
    cbn [Py.rfind_from]. rewrite N.eqb_refl.
    now rewrite rfind_from_absent by exact He2. }
  unfold OsPath.splitext. rewrite Hsep, Hdot.
  replace (Z.of_nat (length prefix) - 1 <? Z.of_nat (length (prefix ++ stem)))%Z
    with true by (symmetry; apply Z.ltb_lt; rewrite length_app; lia).
  unfold OsPath.has_non_dot.
  replace (Z.to_nat (Z.of_nat (length prefix) - 1 + 1)) with (length prefix) by lia.
  replace (Z.to_nat (Z.of_nat (length (prefix ++ stem))
                     - (Z.of_nat (length prefix) - 1 + 1)))
    with (length stem) by (rewrite length_app; lia).
  rewrite Nat2Z.id.
  rewrite skipn_app, skipn_all, Nat.sub_diag. cbn [skipn app].
  rewrite firstn_app, firstn_all, Nat.sub_diag. cbn [firstn]. rewrite app_nil_r.
  destruct (existsb (fun x => negb (x =? DOT)%N) stem); [|reflexivity].
  rewrite (app_assoc prefix stem).
  rewrite firstn_app, firstn_all, Nat.sub_diag. cbn [firstn]. rewrite app_nil_r.
  rewrite skipn_app, skipn_all, Nat.sub_diag. reflexivity.
Qed.

Lemma endswith_slash (a : text) :
  Py.endswith a [SLASH] = true -> exists x, a = x ++ [SLASH].
Proof.
  unfold Py.endswith. cbn [length]. intros H. apply andb_prop in H as [_ H].
  destruct (list_eq_dec _ _ _) as [E|]; [|discriminate].
  exists (firstn (length a - 1) a). rewrite <- E. symmetry.
  apply firstn_skipn.
Qed.

(** The path of a file in a directory: the name after a prefix that is
    empty or ends with [/]. *)
Lemma join_name (root file : text) :
  head_is (fun c => (c =? SLASH)%N) file = false ->
  exists prefix,
    OsPath.join root file = prefix ++ file
    /\ (prefix = [] \/ exists x, prefix = x ++ [SLASH]).
Proof.
  intros H. unfold OsPath.join.
  assert (G : exists prefix,
            (if Py.endswith root [SLASH] || (length root =? 0)
             then root ++ file else root ++ [SLASH] ++ file) = prefix ++ file
            /\ (prefix = [] \/ exists x, prefix = x ++ [SLASH])).
  { destruct (Py.endswith root [SLASH]) eqn:E; cbn [orb].
    - exists root. split; [reflexivity|]. right. now apply endswith_slash.
    - destruct (length root =? 0) eqn:L.
      + exists root. split; [reflexivity|]. left.
        apply Nat.eqb_eq in L. now destruct root.
      + exists (root ++ [SLASH]). split; [now rewrite <- app_assoc|].
        right. now exists root. }
  destruct file as [|c file]; [exact G|]. cbn in H. now rewrite H.
Qed.

Lemma endswith_app (stem ext : text) : Py.endswith (stem ++ ext) ext = true.
Proof.
  unfold Py.endswith. rewrite length_app.
  replace (length ext <=? length stem + length ext) with true
    by (symmetry; apply Nat.leb_le; lia).
  replace (length stem + length ext - length ext) with (length stem) by lia.
  rewrite skipn_app, skipn_all, Nat.sub_diag. cbn [skipn app].
  now destruct (list_eq_dec N.eq_dec ext ext).
Qed.

Lemma selected_app (stem ext : text) :
  In ext target_extensions -> selected (stem ++ ext) = true.
Proof.
  intros H. unfold selected. apply existsb_exists. exists ext.
  split; [exact H | apply endswith_app].
Qed.

Lemma target_extension_shape (ext : text) :
  In ext target_extensions ->
  exists e, ext = DOT :: e
            /\ forallb (fun x => negb (x =? SLASH)%N && negb (x =? DOT)%N) e
               = true.
Proof.
  cbn [target_extensions In].
  intros [<-|[<-|[<-|[<-|[<-|[]]]]]]; eexists; split;
    try (vm_compute; reflexivity); reflexivity.
Qed.

Lemma stem_head (stem rest : text) :
  forallb (fun x => negb (x =? SLASH)%N) stem = true ->
  head_is (fun c => (c =? SLASH)%N) rest = false ->
  head_is (fun c => (c =? SLASH)%N) (stem ++ rest) = false.
Proof.
  destruct stem as [|c stem]; [auto|]. cbn. intros H _.
  apply andb_prop in H as [H _]. now apply negb_true_iff in H.
Qed.

(** X15: the two tests on the name agree on ordinary names.  A file whose
    name is a stem with a character other than a dot, followed by a
    target extension, is selected by [main], and in [process_file] the
    extension that [os.path.splitext] finds in its path is that
    extension, so the file is stripped and written. *)
Theorem selected_file_is_dispatched (root stem ext : text) :
  In ext target_extensions ->
  forallb (fun x => negb (x =? SLASH)%N) stem = true ->
  existsb (fun x => negb (x =? DOT)%N) stem = true ->
  selected (stem ++ ext) = true
  /\ snd (OsPath.splitext (OsPath.join root (stem ++ ext))) = ext
  /\ forall content,
       final_content (snd (OsPath.splitext (OsPath.join root (stem ++ ext))))
                     content <> None.
Proof.
  intros Hext Hs Hn.
  destruct (@target_extension_shape ext Hext) as (e & -> & He).
  split; [now apply selected_app|].
  destruct (join_name root (stem ++ DOT :: e)) as (prefix & -> & Hp).
  { now apply stem_head. }
  rewrite splitext_name, Hn by assumption. split; [reflexivity|].
  intros content. cbn [snd]. rewrite final_content_transform.
  apply dialect_of_target in Hext. now destruct (dialect_of (DOT :: e)).
Qed.

Lemma selected_file_is_dispatched_witness :
  selected (str "app.component" ++ str ".ts") = true
  /\ snd (OsPath.splitext
            (OsPath.join (str "./src") (str "app.component" ++ str ".ts")))
     = str ".ts"
  /\ forall content,
       final_content
         (snd (OsPath.splitext
                 (OsPath.join (str "./src") (str "app.component" ++ str ".ts"))))
         content <> None.
Proof.
  apply (@selected_file_is_dispatched (str "./src") (str "app.component")
           (str ".ts")).
  - cbn. auto.
  - reflexivity.
  - reflexivity.
Defined.

(** X16: the two tests disagree on names made of dots and a target
    extension, such as [.ts] or [..yml]: [main] selects the file, but
    [os.path.splitext] finds no extension in its path and [process_file]
    leaves the file as it is. *)
Theorem dot_file_selected_untouched (fs : filesystem) (root dots ext : text) :
  In ext target_extensions ->
  forallb (fun x => (x =? DOT)%N) dots = true ->
  selected (dots ++ ext) = true
  /\ process_file fs (OsPath.join root (dots ++ ext)) = fs.
Proof.
  intros Hext Hd.
  destruct (@target_extension_shape ext Hext) as (e & -> & He).
  split; [now apply selected_app|].
  assert (Hs : forallb (fun x => negb (x =? SLASH)%N) dots = true).
  { rewrite forallb_forall in *. intros x Hx. specialize (Hd x Hx).
    apply N.eqb_eq in Hd. now subst. }
  assert (Hn : existsb (fun x => negb (x =? DOT)%N) dots = false).
  { apply not_true_is_false. intros H. apply existsb_exists in H as (x & Hx & H).
    rewrite forallb_forall in Hd. now rewrite (Hd x Hx) in H. }
  destruct (join_name root (dots ++ DOT :: e)) as (prefix & E & Hp).
  { now apply stem_head. }
  unfold process_file.
  destruct (contents fs (OsPath.join root (dots ++ DOT :: e))); [|reflexivity].
  rewrite E, splitext_name, Hn by assumption. reflexivity.
Qed.

Lemma dot_file_selected_untouched_witness :
  let fs := Files (fun _ => Some (str "x // y")) (fun _ => true) in
  selected ([] ++ str ".ts") = true
  /\ process_file fs (OsPath.join (str "./src") ([] ++ str ".ts")) = fs.
Proof.
  intros fs. apply (@dot_file_selected_untouched fs (str "./src") [] (str ".ts")).
  - cbn. auto.
  - reflexivity.
Defined.

(** ** What the strippers delete *)

Lemma at_eol_skip_line (s : text) : at_eol (skip_line s) = true.
Proof.
  induction s as [|c s IH]; [reflexivity|]. cbn [skip_line].
  destruct (c =? LF)%N eqn:E; [cbn; exact E | exact IH].
Qed.

Lemma closes_at_end_found (closer m : text) :
  find_after closer (m ++ closer) = Some [] -> closes_at_end closer m = true.
Proof. unfold closes_at_end. now intros ->. Qed.

(** A match of the Script pattern, by group. *)
Lemma js_lex_shape (s : text) (n : nat) (rest : text) :
  js_lex s = Some (n, rest) ->
  (n = 1 /\ exists m, s = m ++ rest)
  \/ (n = 2 /\ exists b, s = str "/*" ++ b ++ str "*/" ++ rest
                         /\ closes_at_end (str "*/") b = true)
  \/ (n = 3 /\ exists b, s = str "//" ++ b ++ rest
                         /\ no_LF b = true /\ at_eol rest = true).
Proof.
  intros H. pose proof (js_lex_split _ H) as (m & Hm & _).
  unfold js_lex in H. destruct s as [|c s]; [discriminate|].
  assert (L : forall o, option_map (pair 1) o = Some (n, rest) -> n = 1).
  { intros [x|]; [now intros [= <- _] | discriminate]. }
  destruct (c =? SQUOTE)%N; [left; split; [eapply L; eauto | eauto]|].
  destruct (c =? DQUOTE)%N; [left; split; [eapply L; eauto | eauto]|].
  destruct (c =? BACKTICK)%N; [left; split; [eapply L; eauto | eauto]|].
  destruct (N.eqb_spec c SLASH) as [->|]; [|discriminate].
  destruct s as [|d s]; [discriminate|].
  destruct (N.eqb_spec d STAR) as [->|].
  - right; left.
    destruct (find_after (str "*/") s) as [r|] eqn:E; [|discriminate].
    injection H as <- <-. split; [reflexivity|].
    destruct (find_after_split _ _ E) as (b & -> & Hb).
    exists b. split; [reflexivity | now apply closes_at_end_found].
  - destruct (N.eqb_spec d SLASH) as [->|]; [|discriminate].
    right; right. injection H as <- <-. split; [reflexivity|].
    destruct (skip_line_split s) as (b & Hb & Hn).
    exists b. split; [cbn; now rewrite <- Hb|].
    split; [exact Hn | apply at_eol_skip_line].
Qed.

Lemma yml_lex_shape (s : text) (n : nat) (rest : text) :
  yml_lex s = Some (n, rest) ->
  (n = 1 /\ exists m, s = m ++ rest)
  \/ (n = 2 /\ exists b, s = HASH :: b ++ rest
                         /\ no_LF b = true /\ at_eol rest = true).
Proof.
  intros H. pose proof (yml_lex_split _ H) as (m & Hm & _).
  unfold yml_lex in H. destruct s as [|c s]; [discriminate|].
  assert (L : forall o, option_map (pair 1) o = Some (n, rest) -> n = 1).
  { intros [x|]; [now intros [= <- _] | discriminate]. }
  destruct (c =? SQUOTE)%N; [left; split; [eapply L; eauto | eauto]|].
  destruct (c =? DQUOTE)%N; [left; split; [eapply L; eauto | eauto]|].
  destruct (N.eqb_spec c HASH) as [->|]; [|discriminate].
  right. injection H as <- <-. split; [reflexivity|].
  destruct (skip_line_split s) as (b & Hb & Hn).
  exists b. split; [cbn; now rewrite <- Hb|].
  split; [exact Hn | apply at_eol_skip_line].
Qed.

Lemma stripped_cons_kept (k : kind) (t : text) (sp : list span) :
  is_comment k = false -> stripped ((k, t) :: sp) = t ++ stripped sp.
Proof. intros H. unfold stripped. cbn [filter fst]. now rewrite H. Qed.

Lemma stripped_cons_comment (k : kind) (t : text) (sp : list span) :
  is_comment k = true -> stripped ((k, t) :: sp) = stripped sp.
Proof. intros H. unfold stripped. cbn [filter fst]. now rewrite H. Qed.

Lemma js_pieces (n : nat) :
  forall s, length s <= n ->
  exists sp, source sp = s
             /\ stripped sp = remove_js_ts_comments s
             /\ comments_ok js_span sp.
Proof.
  induction n as [|n IH]; intros s Hlen.
  { destruct s; [|simpl in Hlen; lia]. exists [].
    now rewrite remove_js_ts_comments_step. }
  rewrite remove_js_ts_comments_step.
  destruct (js_lex s) as [[k rest]|] eqn:E.
  - pose proof (js_lex_split _ E) as (m0 & Hm0 & Hne).
    assert (Hr : length rest <= n).
    { subst s. rewrite length_app in Hlen. destruct m0; [congruence|].
      simpl in Hlen. lia. }
    destruct (IH rest Hr) as (sp & Hs & Ht & Hc).
    destruct (js_lex_shape _ E) as [[-> [m ->]]|[[-> (b & -> & Hb)]|[-> (b & -> & Hb & He)]]].
    + exists ((Literal, m) :: sp). rewrite source_cons, Hs.
      rewrite stripped_cons_kept, Ht by reflexivity.
      cbn [Nat.eqb]. rewrite firstn_consumed.
      repeat split; [discriminate | exact Hc].
    + exists ((BlockComment, str "/*" ++ b ++ str "*/") :: sp).
      rewrite source_cons, Hs, <- !app_assoc.
      rewrite stripped_cons_comment, Ht by reflexivity.
      repeat split; [|exact Hc]. intros _. now apply js_span_block.
    + exists ((LineComment, str "//" ++ b) :: sp).
      rewrite source_cons, Hs, <- !app_assoc.
      rewrite stripped_cons_comment, Ht by reflexivity.
      repeat split; [|exact Hc]. intros _. apply js_span_line; [exact Hb|].
      now rewrite Hs.
  - destruct s as [|c s]; [now exists []|].
    destruct (IH s) as (sp & Hs & Ht & Hc); [simpl in Hlen; lia|].
    exists ((Plain, [c]) :: sp). rewrite source_cons, Hs.
    rewrite stripped_cons_kept, Ht by reflexivity.
    repeat split; [discriminate | exact Hc].
Qed.

Lemma yml_pieces (n : nat) :
  forall s, length s <= n ->
  exists sp, source sp = s
             /\ stripped sp = remove_yml_comments s
             /\ comments_ok yml_span sp.
Proof.
  induction n as [|n IH]; intros s Hlen.
  { destruct s; [|simpl in Hlen; lia]. exists [].
    now rewrite remove_yml_comments_step. }
  rewrite remove_yml_comments_step.
  destruct (yml_lex s) as [[k rest]|] eqn:E.
  - pose proof (yml_lex_split _ E) as (m0 & Hm0 & Hne).
    assert (Hr : length rest <= n).
    { subst s. rewrite length_app in Hlen. destruct m0; [congruence|].
      simpl in Hlen. lia. }
    destruct (IH rest Hr) as (sp & Hs & Ht & Hc).
    destruct (yml_lex_shape _ E) as [[-> [m ->]]|[-> (b & -> & Hb & He)]].
    + exists ((Literal, m) :: sp). rewrite source_cons, Hs.
      rewrite stripped_cons_kept, Ht by reflexivity.
      cbn [Nat.eqb]. rewrite firstn_consumed.
      repeat split; [discriminate | exact Hc].
    + exists ((LineComment, HASH :: b) :: sp).
      rewrite source_cons, Hs.
      rewrite stripped_cons_comment, Ht by reflexivity.
      repeat split; [|exact Hc]. intros _. apply yml_span_line; [exact Hb|].
      now rewrite Hs.
  - destruct s as [|c s]; [now exists []|].
    destruct (IH s) as (sp & Hs & Ht & Hc); [simpl in Hlen; lia|].
    exists ((Plain, [c]) :: sp). rewrite source_cons, Hs.
    rewrite stripped_cons_kept, Ht by reflexivity.
    repeat split; [discriminate | exact Hc].
Qed.

Section DelimitedPieces.

Variables opener closer : text.
Variable remove : text -> text.
Variable ck : kind.
Hypothesis opener_ne : opener <> [].
Hypothesis ck_comment : is_comment ck = true.
Hypothesis remove_step : forall s,
  remove s =
  match delimited opener closer s with
  | Some rest => remove rest
  | None =>
    match s with
    | [] => []
    | c :: s' => c :: remove s'
    end
  end.

Lemma delimited_pieces (n : nat) :
  forall s, length s <= n ->
  exists sp, source sp = s
             /\ stripped sp = remove s
             /\ comments_ok (delimited_span opener closer ck) sp.
Proof.
  induction n as [|n IH]; intros s Hlen.
  { destruct s; [|simpl in Hlen; lia]. exists []. rewrite remove_step.
    destruct (delimited opener closer []) eqn:E; [|now repeat split].
    apply (@delimited_consumes opener closer [] _ opener_ne) in E.
    simpl in E. lia. }
  rewrite remove_step.
  destruct (delimited opener closer s) as [rest|] eqn:E.
  - pose proof (@delimited_consumes opener closer s rest opener_ne E) as Hl.
    destruct (IH rest) as (sp & Hs & Ht & Hc); [lia|].
    destruct (delimited_split _ _ _ E) as (b & -> & Hb).
    exists ((ck, opener ++ b ++ closer) :: sp).
    rewrite source_cons, Hs, <- !app_assoc.
    rewrite stripped_cons_comment, Ht by exact ck_comment.
    repeat split; [|exact Hc]. intros _.
    apply delimited_span_comment. now apply closes_at_end_found.
  - destruct s as [|c s]; [now exists []|].
    destruct (IH s) as (sp & Hs & Ht & Hc); [simpl in Hlen; lia|].
    exists ((Plain, [c]) :: sp). rewrite source_cons, Hs.
    rewrite stripped_cons_kept, Ht by reflexivity.
    repeat split; [discriminate | exact Hc].
Qed.

End DelimitedPieces.

(** Every input splits into pieces of which the stripper keeps some and
    drops the others, the dropped ones being well-formed comments. *)
Lemma strip_pieces (d : dialect) (s : text) :
  exists sp,
    source sp = s
    /\ stripped sp = remove_comments d s
    /\ comments_ok (span_ok d) sp.
Proof.
  destruct d; cbn [remove_comments span_ok].
  - apply (js_pieces (n:=length s)). lia.
  - apply (@delimited_pieces (str "<!--") (str "-->") remove_html_comments
             MarkupComment ltac:(discriminate) eq_refl
             remove_html_comments_step (length s)). lia.
  - apply (@delimited_pieces (str "/*") (str "*/") remove_css_comments
             BlockComment ltac:(discriminate) eq_refl
             remove_css_comments_step (length s)). lia.
  - apply (yml_pieces (n:=length s)). lia.
Qed.

(** X1: whatever a stripper deletes is a comment.  Every input splits into
    pieces of which the output keeps some, in order, and drops the others;
    each dropped piece is a well-formed comment of the dialect: a block or
    markup comment that ends at the first closer after its opener, or a
    line comment that has no \n in it and runs to the end of its line. *)
Theorem deleted_pieces_are_comments (d : dialect) (s : text) :
  exists sp,
    source sp = s
    /\ stripped sp = remove_comments d s
    /\ comments_ok (span_ok d) sp.
Proof. exact (strip_pieces d s). Qed.

Lemma deleted_from_refl (t : text) : deleted_from t t.
Proof. induction t; constructor; assumption. Qed.

Lemma deleted_from_app (a b c d : text) :
  deleted_from a b -> deleted_from c d -> deleted_from (a ++ c) (b ++ d).
Proof. induction 1; intros Hcd; cbn [app]; try constructor; auto. Qed.

Lemma deleted_from_skip (t out inp : text) :
  deleted_from out inp -> deleted_from out (t ++ inp).
Proof. intros H. induction t; cbn [app]; [exact H | now constructor]. Qed.

Lemma deleted_from_length (out inp : text) :
  deleted_from out inp -> length out <= length inp.
Proof. induction 1; simpl; lia. Qed.

Lemma stripped_deleted (sp : list span) : deleted_from (stripped sp) (source sp).
Proof.
  induction sp as [|[k t] sp IH]; [constructor|]. rewrite source_cons.
  destruct (is_comment k) eqn:E.
  - rewrite stripped_cons_comment by exact E. now apply deleted_from_skip.
  - rewrite stripped_cons_kept by exact E.
    apply deleted_from_app; [apply deleted_from_refl | exact IH].
Qed.

Lemma strip_deleted (d : dialect) (s : text) :
  deleted_from (remove_comments d s) s.
Proof.
  destruct (strip_pieces d s) as (sp & Hs & Ht & _).
  rewrite <- Ht, <- Hs. apply stripped_deleted.
Qed.

(** X2: a stripper only deletes.  In every dialect the output is the input
    with some characters removed: nothing is inserted, replaced or moved,
    and the output is never longer than the input. *)
Theorem strip_only_deletes (d : dialect) (s : text) :
  deleted_from (remove_comments d s) s
  /\ length (remove_comments d s) <= length s.
Proof.
  split; [apply strip_deleted | apply deleted_from_length, strip_deleted].
Qed.

Lemma comment_head (d : dialect) (k : kind) (t following : text) :
  is_comment k = true -> span_ok d k t following ->
  exists o t', In o (openers d) /\ t = o ++ t'.
Proof.
  intros Hk H. destruct d; cbn [span_ok openers] in *;
    inversion H; subst; try discriminate.
  - exists (str "/*"). eexists. split; [now left | reflexivity].
  - exists (str "//"). eexists. split; [right; now left | reflexivity].
  - exists (str "<!--"). eexists. split; [now left | reflexivity].
  - exists (str "/*"). eexists. split; [now left | reflexivity].
  - exists (str "#"). eexists. split; [now left | reflexivity].
Qed.

Lemma no_comment_piece (d : dialect) (sp : list span) :
  comments_ok (span_ok d) sp ->
  (forall o, In o (openers d) -> find_after o (source sp) = None) ->
  stripped sp = source sp.
Proof.
  induction sp as [|[k t] sp IH]; [reflexivity|]. intros [Hk Hc].
  rewrite source_cons. intros H.
  destruct (is_comment k) eqn:E.
  - exfalso.
    destruct (comment_head d k t _ E (Hk eq_refl)) as (o & t' & Ho & ->).
    specialize (H o Ho). rewrite <- app_assoc, find_after_head in H.
    discriminate.
  - rewrite stripped_cons_kept by exact E. f_equal. apply IH; [exact Hc|].
    intros o Ho. apply (find_after_suffix o t). now apply H.
Qed.

(** X3: a text in which no comment opener of the dialect occurs ([/*] and
    [//] for Script, [<!--] for Markup, [/*] for Stylesheet, [#] for
    Config) is left as it is by the stripper, whatever quotes it has,
    closed or not. *)
Theorem no_opener_no_change (d : dialect) (s : text) :
  (forall o, In o (openers d) -> find_after o s = None) ->
  remove_comments d s = s.
Proof.
  intros H. destruct (strip_pieces d s) as (sp & Hs & Ht & Hc).
  rewrite <- Ht, <- Hs. apply (@no_comment_piece d); [exact Hc|].
  now rewrite Hs.
Qed.

Lemma no_opener_no_change_witness :
  remove_comments Script
    (str "it's `unclosed a/b * c" ++ [LF] ++ str "x = 'a # b'")
  = str "it's `unclosed a/b * c" ++ [LF] ++ str "x = 'a # b'".
Proof.
  apply (@no_opener_no_change Script).
  intros o [<-|[<-|[]]]; reflexivity.
Defined.

Lemma yml_newlines_kept (sp : list span) :
  comments_ok yml_span sp ->
  filter (N.eqb LF) (stripped sp) = filter (N.eqb LF) (source sp).
Proof.
  induction sp as [|[k t] sp IH]; [reflexivity|]. intros [Hk Hc].
  specialize (IH Hc). rewrite source_cons.
  destruct (is_comment k) eqn:E.
  - rewrite stripped_cons_comment by exact E.
    assert (Ht : filter (N.eqb LF) t = []).
    { specialize (Hk eq_refl). inversion Hk; subst; try discriminate.
      cbn [filter]. change (LF =? HASH)%N with false.
      apply Lines.filter_none. intros x Hx.
      unfold no_LF in H. rewrite forallb_forall in H. specialize (H x Hx).
      apply negb_true_iff in H. now rewrite N.eqb_sym. }
    etransitivity; [exact IH|].
    etransitivity; [|symmetry; apply filter_app].
    exact (eq_sym (f_equal (fun x => x ++ filter (N.eqb LF) (source sp)) Ht)).
  - rewrite stripped_cons_kept by exact E.
    etransitivity; [apply filter_app|].
    etransitivity; [|symmetry; apply filter_app].
    exact (f_equal (app (filter (N.eqb LF) t)) IH).
Qed.

(** X4: the Config stripper keeps every \n of its input: a [#] comment
    stops in front of the end of its line and a literal is kept whole, so
    the stripped text has the newlines of the input, and as many. *)
Theorem yml_keeps_newlines (s : text) :
  filter (N.eqb LF) (remove_yml_comments s) = filter (N.eqb LF) s
  /\ count_occ N.eq_dec (remove_yml_comments s) LF = count_occ N.eq_dec s LF.
Proof.
  destruct (strip_pieces Config s) as (sp & Hs & Ht & Hc).
  cbn [remove_comments span_ok] in *.
  assert (H : filter (N.eqb LF) (remove_yml_comments s) = filter (N.eqb LF) s).
  { rewrite <- Ht, <- Hs. now apply yml_newlines_kept. }
  split; [exact H|].
  assert (C : forall t, count_occ N.eq_dec t LF = length (filter (N.eqb LF) t)).
  { induction t as [|x t IHt]; [reflexivity|]. cbn [count_occ filter].
    destruct (N.eq_dec x LF) as [->|Hx].
    - rewrite N.eqb_refl. cbn. now rewrite IHt.
    - destruct (N.eqb_spec LF x); [congruence | exact IHt]. }
  now rewrite !C, H.
Qed.

(** ** The compaction *)

Lemma unlines_app (a b : list text) :
  unlines (a ++ b) = unlines a ++ unlines b.
Proof. unfold unlines. now rewrite map_app, concat_app. Qed.

(** X5: the compaction works line by line.  The compaction of two texts
    with a \n between them is the compaction of the first followed by
    that of the second; so a \n at the end of the text, or at its start,
    changes nothing. *)
Theorem compact_line_by_line (u v : text) :
  compact (u ++ LF :: v) = compact u ++ compact v
  /\ compact (u ++ [LF]) = compact u
  /\ compact (LF :: v) = compact v.
Proof.
  assert (H : forall a b, compact (a ++ LF :: b) = compact a ++ compact b).
  { intros a b. rewrite !Lines.compact_unlines, Lines.kept_lines_app_LF.
    apply unlines_app. }
  split; [apply H|]. split.
  - rewrite H. apply app_nil_r.
  - apply (H [] v).
Qed.

Lemma linebreak_isspace (c : char) :
  Py.is_linebreak c = true -> Py.isspace c = true.
Proof.
  unfold Py.is_linebreak, Py.isspace.
  rewrite !orb_true_iff, !andb_true_iff, !N.leb_le, !N.eqb_eq. lia.
Qed.

Lemma nonspace_linebreak (c : char) :
  Py.is_linebreak c = true -> nonspace c = false.
Proof.
  intros H. unfold nonspace. now rewrite (linebreak_isspace c H).
Qed.

Lemma filter_nonspace_blank (l : text) :
  forallb Py.isspace l = true <-> filter nonspace l = [].
Proof.
  induction l as [|c l IH]; [easy|]. cbn [forallb filter]. unfold nonspace at 1.
  destruct (Py.isspace c); cbn [negb andb]; [exact IH | easy].
Qed.

(** The lines of a text have its characters, in order, but for the line
    boundaries. *)
Lemma splitlines_nonspace (s : text) :
  filter nonspace (concat (Py.splitlines s)) = filter nonspace s.
Proof.
  induction s as [|c|c d s IH IHd] using list_ind2.
  - reflexivity.
  - destruct (Py.is_linebreak c) eqn:E.
    + rewrite Lines.splitlines_break by exact E.
      cbn [head_is tl]. rewrite andb_false_r.
      cbn [Py.splitlines concat app filter].
      now rewrite (nonspace_linebreak c E).
    + rewrite Lines.splitlines_cons by exact E. reflexivity.
  - destruct (Py.is_linebreak c) eqn:E.
    + rewrite Lines.splitlines_break by exact E.
      cbn [concat app filter]. rewrite (nonspace_linebreak c E).
      cbn [head_is tl].
      destruct ((c =? CR)%N && (d =? LF)%N) eqn:F.
      * apply andb_prop in F as [_ F]. apply N.eqb_eq in F. subst d.
        rewrite IH. cbn [filter].
        now rewrite (nonspace_linebreak LF eq_refl).
      * exact IHd.
    + rewrite Lines.splitlines_cons by exact E.
      change (filter nonspace (c :: d :: s))
        with (if nonspace c then c :: filter nonspace (d :: s)
              else filter nonspace (d :: s)).
      rewrite <- IHd.
      destruct (Py.splitlines (d :: s)) as [|l ls] eqn:S.
      * apply Lines.splitlines_nil in S. discriminate.
      * cbn [concat app filter]. reflexivity.
Qed.

Lemma kept_lines_nonspace (ls : list text) :
  filter nonspace
    (concat (filter (fun l => negb (forallb Py.isspace l)) ls))
  = filter nonspace (concat ls).
Proof.
  induction ls as [|l ls IH]; [reflexivity|]. cbn [filter concat].
  destruct (forallb Py.isspace l) eqn:E; cbn [negb].
  - rewrite IH. etransitivity; [|symmetry; apply filter_app].
    apply filter_nonspace_blank in E.
    exact (f_equal (fun x => x ++ filter nonspace (concat ls)) (eq_sym E)).
  - cbn [concat].
    etransitivity; [apply filter_app|].
    etransitivity; [|symmetry; apply filter_app].
    exact (f_equal (app (filter nonspace l)) IH).
Qed.

Lemma unlines_nonspace (ls : list text) :
  filter nonspace (unlines ls) = filter nonspace (concat ls).
Proof.
  unfold unlines. induction ls as [|l ls IH]; [reflexivity|].
  cbn [map concat].
  etransitivity; [apply filter_app|].
  etransitivity; [|symmetry; apply filter_app].
  etransitivity; [|exact (f_equal (app (filter nonspace l)) IH)].
  f_equal. etransitivity; [apply filter_app|]. cbn [filter].
  rewrite (nonspace_linebreak LF eq_refl). apply app_nil_r.
Qed.

Lemma compact_nonspace (t : text) :
  filter nonspace (compact t) = filter nonspace t.
Proof.
  rewrite Lines.compact_unlines, unlines_nonspace, Lines.kept_lines_filter.
  now rewrite kept_lines_nonspace, splitlines_nonspace.
Qed.

(** X6: the compaction gives the empty text exactly when every character
    of its input is white space; any other input gives a text that ends
    with \n. *)
Theorem compact_empty_iff (t : text) :
  (compact t = [] <-> forallb Py.isspace t = true)
  /\ (compact t <> [] -> exists body, compact t = body ++ [LF]).
Proof.
  split.
  - split.
    + intros H. apply filter_nonspace_blank.
      now rewrite <- compact_nonspace, H.
    + intros H. now rewrite Lines.compact_unlines, Lines.kept_lines_blank.
  - unfold compact. destruct (kept_lines t) as [|l ls]; [congruence|].
    intros _. now eexists.
Qed.

(** The text of all the lines, each with its \n, is at most one character
    longer than the text: the one \n that closes a last line which had no
    line boundary after it. *)
Lemma unlines_splitlines_length (s : text) :
  length (unlines (Py.splitlines s)) <= length s + 1.
Proof.
  unfold unlines.
  induction s as [|c|c d s IH IHd] using list_ind2.
  - cbn. lia.
  - destruct (Py.is_linebreak c) eqn:E.
    + rewrite Lines.splitlines_break by exact E.
      cbn [head_is tl]. rewrite andb_false_r.
      cbn. lia.
    + rewrite Lines.splitlines_cons by exact E. cbn. lia.
  - destruct (Py.is_linebreak c) eqn:E.
    + rewrite Lines.splitlines_break by exact E. cbn [head_is tl].
      destruct ((c =? CR)%N && (d =? LF)%N);
        cbn [map concat app length] in *; lia.
    + rewrite Lines.splitlines_cons by exact E.
      destruct (Py.splitlines (d :: s)) as [|l ls] eqn:S.
      * apply Lines.splitlines_nil in S. discriminate.
      * cbn [map concat app length] in *.
        rewrite !length_app in *. cbn [length] in *. lia.
Qed.

Lemma unlines_filter_length (f : text -> bool) (ls : list text) :
  length (unlines (filter f ls)) <= length (unlines ls).
Proof.
  unfold unlines. induction ls as [|l ls IH]; [reflexivity|].
  cbn [filter map concat]. destruct (f l); cbn [map concat];
    rewrite ?length_app; lia.
Qed.

Lemma compact_length (t : text) : length (compact t) <= length t + 1.
Proof.
  rewrite Lines.compact_unlines. unfold kept_lines.
  etransitivity; [apply unlines_filter_length|].
  apply unlines_splitlines_length.
Qed.

(** X7: the compaction touches white space only.  The characters of its
    output that are not white space are those of its input, in their
    order; and the output is at most one character longer than the input
    (the \n that closes the last line). *)
Theorem compact_whitespace_only (t : text) :
  filter nonspace (compact t) = filter nonspace t
  /\ length (compact t) <= length t + 1.
Proof. split; [apply compact_nonspace | apply compact_length]. Qed.

(** ** From the file read to the file written *)

Lemma deleted_from_filter (f : char -> bool) (out inp : text) :
  deleted_from out inp -> deleted_from (filter f out) (filter f inp).
Proof.
  induction 1 as [|c out inp _ IH|c out inp _ IH]; cbn [filter].
  - constructor.
  - destruct (f c); [now constructor | exact IH].
  - destruct (f c); [now constructor | exact IH].
Qed.

Lemma transform_deletes (d : dialect) (content : text) :
  deleted_from (filter nonspace (transform d content))
               (filter nonspace content)
  /\ length (transform d content) <= length content + 1.
Proof.
  unfold transform. split.
  - rewrite compact_nonspace. apply deleted_from_filter, strip_deleted.
  - pose proof (compact_length (remove_comments d content)).
    pose proof (deleted_from_length (strip_deleted d content)). lia.
Qed.

(** X8: whatever [process_file] does to a file, it only deletes from what
    is not white space: the characters of the new content that are not
    white space are characters of the old content, in their order,
    nothing inserted, replaced or moved; and the file grows by one
    character at most (the \n that closes its last line). *)
Theorem process_file_only_deletes (fs : filesystem)
    (filepath content out : text) :
  contents fs filepath = Some content ->
  contents (process_file fs filepath) filepath = Some out ->
  deleted_from (filter nonspace out) (filter nonspace content)
  /\ length out <= length content + 1.
Proof.
  intros Hc. rewrite process_file_at, Hc, final_content_transform.
  assert (Same : deleted_from (filter nonspace content)
                              (filter nonspace content)
                 /\ length content <= length content + 1).
  { split; [apply deleted_from_refl | lia]. }
  destruct (dialect_of (snd (OsPath.splitext filepath))) as [d|];
    cbn [option_map]; [|now intros [= <-]].
  destruct (writable fs filepath); intros [= <-];
    [apply transform_deletes | exact Same].
Qed.

Lemma process_file_only_deletes_witness :
  let fs := Files (fun _ => Some (str "a { } /* c */" ++ [LF; LF] ++ str "b"))
                  (fun _ => true) in
  let content := str "a { } /* c */" ++ [LF; LF] ++ str "b" in
  let out := str "a { } " ++ [LF] ++ str "b" ++ [LF] in
  deleted_from (filter nonspace out) (filter nonspace content)
  /\ length out <= length content + 1.
Proof.
  intros fs content out.
  apply (@process_file_only_deletes fs (str "./x.css") content out);
    reflexivity.
Defined.

(** ** [main], file by file *)

Lemma process_files_fold (root : text) (files : list text) :
  forall fs,
  process_files root files fs
  = fold_left process_file
              (map (OsPath.join root) (filter selected files)) fs.
Proof.
  unfold process_files.
  induction files as [|f files IH]; intros fs; [reflexivity|].
  cbn [fold_left filter]. rewrite IH. now destruct (selected f).
Qed.

Lemma main_fold (tree : directory) (fs : filesystem) :
  main tree fs = fold_left process_file (selected_paths tree) fs.
Proof.
  unfold main, selected_paths. generalize (walk (str ".") tree).
  intros l. revert fs.
  induction l as [|[root files] l IH]; intros fs; [reflexivity|].
  cbn [fold_left flat_map]. now rewrite fold_left_app, IH, process_files_fold.
Qed.

Lemma fold_process_other (l : list text) (p : text) :
  ~ In p l ->
  forall fs, contents (fold_left process_file l fs) p = contents fs p.
Proof.
  induction l as [|a l IH]; intros H fs; [reflexivity|].
  cbn [fold_left]. rewrite IH by (intros Hp; apply H; now right).
  apply process_file_other. intros ->. apply H. now left.
Qed.

Lemma fold_process_once (l : list text) (p : text) :
  NoDup l -> In p l ->
  forall fs,
    contents (fold_left process_file l fs) p
    = contents (process_file fs p) p.
Proof.
  induction l as [|a l IH]; intros Hnd Hin fs; [destruct Hin|].
  inversion Hnd as [|x l' Ha Hl]; subst. cbn [fold_left].
  destruct (list_eq_dec N.eq_dec p a) as [->|Hpa].
  - now apply fold_process_other.
  - destruct Hin as [->|Hin]; [congruence|].
    rewrite IH by assumption.
    rewrite !process_file_at, process_file_writable.
    now rewrite (@process_file_other fs a p Hpa).
Qed.

(** X9: in a run of [main] the files do not influence one another.  When
    the paths handed to [process_file] are pairwise different, as the
    paths of a directory tree are, each of them ends with the content
    that [process_file] alone gives it from the store [main] started
    with, wherever the walk meets it. *)
Theorem main_processes_each_once (tree : directory) (fs : filesystem)
    (p : text) :
  NoDup (selected_paths tree) ->
  In p (selected_paths tree) ->
  contents (main tree fs) p = contents (process_file fs p) p.
Proof.
  intros Hnd Hin. rewrite main_fold. now apply fold_process_once.
Qed.

Lemma main_processes_each_once_witness :
  let fs := Files (fun _ => Some (str "x /* y */")) (fun _ => true) in
  let tree := Directory [(str "src", Directory [] [str "a.ts"; str "a.txt"])]
                        [str "b.css"] in
  contents (main tree fs) (str "./src/a.ts")
  = contents (process_file fs (str "./src/a.ts")) (str "./src/a.ts").
Proof.
  intros fs tree. apply (@main_processes_each_once tree fs (str "./src/a.ts")).
  - vm_compute. repeat (constructor; [cbn; intuition discriminate|]).
    constructor.
  - vm_compute. right. left. reflexivity.
Defined.

Lemma fold_process_writable (l : list text) :
  forall fs, writable (fold_left process_file l fs) = writable fs.
Proof.
  induction l as [|a l IH]; intros fs; [reflexivity|].
  cbn [fold_left]. now rewrite IH, process_file_writable.
Qed.

(** X10: the outcome of [main] does not depend on the order in which
    [os.walk] lists the directories and the files: two walks that hand
    the same pairwise different paths to [process_file], in any order,
    leave the same content at every path and the same permissions. *)
Theorem main_order_independent (t1 t2 : directory) (fs : filesystem) :
  NoDup (selected_paths t1) ->
  Permutation (selected_paths t1) (selected_paths t2) ->
  (forall p, contents (main t1 fs) p = contents (main t2 fs) p)
  /\ writable (main t1 fs) = writable (main t2 fs).
Proof.
  intros Hnd Hp. rewrite !main_fold. split.
  - intros p. destruct (in_dec (list_eq_dec N.eq_dec) p (selected_paths t1))
      as [Hin|Hout].
    + rewrite (@fold_process_once _ p Hnd Hin).
      symmetry. apply fold_process_once.
      * exact (Permutation_NoDup Hp Hnd).
      * exact (Permutation_in p Hp Hin).
    + rewrite (@fold_process_other _ p Hout).
      symmetry. apply fold_process_other. intros Hin. apply Hout.
      exact (Permutation_in p (Permutation_sym Hp) Hin).
  - now rewrite !fold_process_writable.
Qed.

Lemma main_order_independent_witness :
  let fs := Files (fun _ => Some (str "x /* y */ # z")) (fun _ => true) in
  let src := (str "src", Directory [] [str "a.ts"; str "a.txt"]) in
  let cfg := (str "cfg", Directory [] [str "c.yml"]) in
  let t1 := Directory [src; cfg] [str "b.css"; str "i.html"] in
  let t2 := Directory [cfg; src] [str "i.html"; str "b.css"] in
  (forall p, contents (main t1 fs) p = contents (main t2 fs) p)
  /\ writable (main t1 fs) = writable (main t2 fs).
Proof.
  intros fs src cfg t1 t2. apply (@main_order_independent t1 t2 fs).
  - vm_compute. repeat (constructor; [cbn; intuition discriminate|]).
    constructor.
  - vm_compute. apply perm_trans with (1 := perm_swap _ _ _).
    do 2 apply perm_skip. apply perm_swap.
Defined.
